(** * ZooKeeper client-side load balancer

    A shallow embedding of [src/Common/ZooKeeper/ZooKeeperLoadBalancer.cpp]:
    the endpoint registry, the four balancer classes ([Random],
    [IBalancerWithPriorities], [RoundRobin], [FirstOrRandom]), the factory
    [getConnectionBalancer] and the connection loop
    [ZooKeeperLoadBalancer::createClient].

    Conventions of the embedding.
    - [size_t] is [N]; the arithmetic the source performs on it ([+], [-])
      is reduced modulo [2^64].  The size of a [std::vector] is itself a
      [size_t], written [N.of_nat (length _)].
    - [operator[]] of [std::vector] outside the vector is undefined
      behaviour.  A [const] member function returns [option]: [None] is
      undefined behaviour.  A member function that mutates the object or
      throws returns [Result]: the value or the exception together with the
      object afterwards, or [Undefined].
    - [chassert] aborts the process when its condition is false (debug
      builds); the embedding leaves defined behaviour there.
    - [thread_local_rng] is an argument [g]: the draw, that is the state of
      the generator as far as it decides what a distribution returns.
      Which output of the generator gives which value is left to the
      library; no statement depends on it.
    - Logging has no effect on the objects and is left out. *)

From stdpp Require Import base numbers list strings option sorting.

Local Open Scope N_scope.

(** ** Machine integers *)

Abbreviation size_t := N (only parsing).

(** [std::numeric_limits<size_t>::max()] *)
Definition SIZE_MAX : size_t := 2 ^ 64 - 1.

Definition size_add (a b : size_t) : size_t := (a + b) mod 2 ^ 64.

Definition size_sub (a b : size_t) : size_t := (a + 2 ^ 64 - b mod 2 ^ 64) mod 2 ^ 64.

(** [static_cast<int>] of a [size_t]: the low 32 bits, read as two's
    complement. *)
Definition static_cast_int (x : size_t) : Z :=
  let low := Z.of_N (x mod 2 ^ 32) in
  if decide (low < 2 ^ 31)%Z then low else (low - 2 ^ 32)%Z.

(** [std::uniform_int_distribution<int>(a, b)] applied to the generator:
    some value of [a..b], decided by the draw [g]; the behaviour is undefined
    unless [a <= b].  The library does not fix how the output of the
    generator is mapped into [a..b]: the formula below only makes [g] range
    over every value of [a..b], and [g] is not the raw output. *)
Definition uniform_int_distribution (a b : Z) (g : N) : option Z :=
  if decide (a ≤ b)%Z then Some (a + Z.of_N g mod (b - a + 1))%Z else None.

(** ** Exceptions and results *)

Inductive ErrorCode := ALL_CONNECTION_TRIES_FAILED.

Inductive CoordinationError := ZBADARGUMENTS | ZCONNECTIONLOSS.

(** What the construction of a [Poco::Net::SocketAddress] from a host name
    throws: the two exceptions [isKeeperHostDNSAvailable] names, and any
    other exception of Poco. *)
Inductive NetException := HostNotFoundException | DNSException | OtherNetException.

(** [DB::Exception(code, fmt, arg)],
    [zkutil::KeeperException::fromMessage(error, message)], and the
    exceptions of Poco, which are no [DB::Exception]. *)
Inductive Exception :=
| DBException (code : ErrorCode) (fmt : string) (arg : size_t)
| KeeperException (error : CoordinationError) (message : string)
| PocoException (e : NetException).

Inductive Result (S A : Type) :=
| Returns (a : A) (s : S)
| Throws (e : Exception) (s : S)
| Undefined.
Arguments Returns {S A} a s.
Arguments Throws {S A} e s.
Arguments Undefined {S A}.

(** The same result, with the object seen from the class that embeds it. *)
Definition withState {S S' A : Type} (f : S → S') (r : Result S A) : Result S' A :=
  match r with
  | Returns a s => Returns a (f s)
  | Throws e s => Throws e (f s)
  | Undefined => Undefined
  end.

(** ** Endpoint registry *)

Inductive Status := UNDEF | ONLINE | OFFLINE.

Global Instance Status_eq_dec : EqDecision Status.
Proof. solve_decision. Defined.

Module Endpoint.
Record t := mk {
  address : string;
  secure : bool;
  id : size_t;
  status : Status
}.

(** The assignment [endpoint.status = s]. *)
Definition set_status (s : Status) (endpoint : t) : t :=
  {| address := address endpoint; secure := secure endpoint;
     id := id endpoint; status := s |}.
End Endpoint.

Record EndpointRegistry := { endpoints : list Endpoint.t }.

Definition emptyRegistry : EndpointRegistry := {| endpoints := [] |}.

Definition addEndpoint (endpoint : Endpoint.t) (r : EndpointRegistry)
  : size_t * EndpointRegistry :=
  let id := N.of_nat (length (endpoints r)) in
  (id, {| endpoints := endpoints r ++ [endpoint] |}).

Definition findEndpointById (id : size_t) (r : EndpointRegistry) : option Endpoint.t :=
  endpoints r !! N.to_nat id.

Definition getEndpointsCount (r : EndpointRegistry) : size_t :=
  N.of_nat (length (endpoints r)).

Definition markHost (s : Status) (id : size_t) (r : EndpointRegistry)
  : option EndpointRegistry :=
  if decide (id < getEndpointsCount r)
  then Some {| endpoints := alter (Endpoint.set_status s) (N.to_nat id) (endpoints r) |}
  else None.

Definition markHostOffline := markHost OFFLINE.

Definition markHostOnline := markHost ONLINE.

Definition resetOfflineStatus (endpoint : Endpoint.t) : Endpoint.t :=
  if decide (Endpoint.status endpoint = OFFLINE)
  then Endpoint.set_status UNDEF endpoint
  else endpoint.

Definition resetOfflineStatuses (r : EndpointRegistry) : EndpointRegistry :=
  {| endpoints := resetOfflineStatus <$> endpoints r |}.

Definition getRangeByStatus (status : Status) (r : EndpointRegistry) : list size_t :=
  Endpoint.id <$> filter (λ endpoint, Endpoint.status endpoint = status) (endpoints r).

(** The status the registry holds for [id]. *)
Definition statusOf (r : EndpointRegistry) (id : size_t) : option Status :=
  Endpoint.status <$> findEndpointById id r.

(** [parseForSocketAddress]: the address without the token [secure://], and
    whether the token was there. *)
Definition parseForSocketAddress (raw_host : string) : string * bool :=
  let secure := String.prefix "secure://" raw_host in
  if secure
  then (String.substring 9 (String.length raw_host - 9) raw_host, secure)
  else (raw_host, secure).

(** ** The balancer interface and its base class *)

Record ClientSettings := { use_fallback_session_lifetime : bool }.

Module EndpointInfo.
Record t := mk {
  address : string;
  secure : bool;
  id : size_t;
  settings : ClientSettings
}.
End EndpointInfo.

(** The loop of the constructor of [IBalancerWithEndpointStatuses]; the
    counter [i] stays below [hosts.size()]. *)
Fixpoint registerHosts (hosts : list string) (i : size_t) (registry : EndpointRegistry)
  : EndpointRegistry :=
  match hosts with
  | [] => registry
  | raw_host :: hosts' =>
      let '(address, secure) := parseForSocketAddress raw_host in
      let endpoint :=
        {| Endpoint.address := address; Endpoint.secure := secure;
           Endpoint.id := i; Endpoint.status := UNDEF |} in
      registerHosts hosts' (i + 1) (addEndpoint endpoint registry).2
  end.

Definition IBalancerWithEndpointStatuses (hosts : list string) : EndpointRegistry :=
  registerHosts hosts 0 emptyRegistry.

Definition getAvailableEndpointsCount (registry : EndpointRegistry) : size_t :=
  size_add (N.of_nat (length (getRangeByStatus ONLINE registry)))
           (N.of_nat (length (getRangeByStatus UNDEF registry))).

Definition asEndpoint (fallback : bool) (id : size_t) (registry : EndpointRegistry)
  : option EndpointInfo.t :=
  endpoint ← findEndpointById id registry;
  Some {| EndpointInfo.address := Endpoint.address endpoint;
          EndpointInfo.secure := Endpoint.secure endpoint;
          EndpointInfo.id := id;
          EndpointInfo.settings := {| use_fallback_session_lifetime := fallback |} |}.

Definition asOptimalEndpoint := asEndpoint false.

Definition asTemporaryEndpoint := asEndpoint true.

(** The exception at the end of every [getHostToConnect]. *)
Definition noAvailableEndpoints (count : size_t) : Exception :=
  DBException ALL_CONNECTION_TRIES_FAILED
    "No available endpoints left. All offline endpoints are reset in undefined status. Endpoints count is {}"
    count.

(** The end of every [getHostToConnect]:
    [chassert(getAvailableEndpointsCount() == 0); resetOfflineStatuses();
     throw DB::Exception(ALL_CONNECTION_TRIES_FAILED, ..., getEndpointsCount())]. *)
Definition noEndpointsLeft (registry : EndpointRegistry)
  : Result EndpointRegistry EndpointInfo.t :=
  if decide (getAvailableEndpointsCount registry = 0)
  then
    let registry' := resetOfflineStatuses registry in
    Throws (noAvailableEndpoints (getEndpointsCount registry')) registry'
  else Undefined.

(** Lifts a [const] computation into a member function that leaves the
    object [s] as it is. *)
Definition returning {S A : Type} (s : S) (r : option A) : Result S A :=
  match r with
  | Some a => Returns a s
  | None => Undefined
  end.

(** The draw shared by [Random::getHostFrom] and
    [FirstOrRandom::getHostFrom]:
    [chassert(!range.empty());
     std::uniform_int_distribution<int> distribution(0, static_cast<int>(range.size()-1));
     chosen = distribution(thread_local_rng); range[chosen]]. *)
Definition drawFrom (range : list size_t) (g : N) : option size_t :=
  if decide (range = []) then None
  else
    chosen ← uniform_int_distribution
               0 (static_cast_int (size_sub (N.of_nat (length range)) 1)) g;
    range !! Z.to_nat chosen.

(** ** Random *)

Module Random.
Record t := mk { registry : EndpointRegistry }.

Definition new (hosts : list string) : t :=
  {| registry := IBalancerWithEndpointStatuses hosts |}.

Definition getHostFrom (range : list size_t) (g : N) (b : t) : option EndpointInfo.t :=
  id ← drawFrom range g;
  asOptimalEndpoint id (registry b).

Definition getHostToConnect (g : N) (b : t) : Result t EndpointInfo.t :=
  let range := getRangeByStatus ONLINE (registry b) in
  if decide (range ≠ []) then returning b (getHostFrom range g b)
  else
    let range := getRangeByStatus UNDEF (registry b) in
    if decide (range ≠ []) then returning b (getHostFrom range g b)
    else
      withState mk (noEndpointsLeft (registry b)).

Definition endpointsWorthChecking (current_endpoint_id : option size_t) (b : t)
  : option (list EndpointInfo.t) := Some [].

Definition hasBetterHostToConnect (current_endpoint_id : size_t) (b : t)
  : option bool := Some false.
End Random.

(** ** IBalancerWithPriorities *)

Module IBalancerWithPriorities.
Record t := mk { registry : EndpointRegistry; priorities : list size_t }.

Definition PriorityCalculator := Endpoint.t → size_t.

(** The loop of the two-argument constructor:
    [for (i = 0; i < getEndpointsCount(); ++i)
       priorities.push_back(priority_calculator(registry.findEndpointById(i)))]. *)
Definition new (hosts : list string) (priority_calculator : PriorityCalculator) : t :=
  let registry := IBalancerWithEndpointStatuses hosts in
  {| registry := registry;
     priorities := priority_calculator <$> endpoints registry |}.

Definition priorityAsInOrer : PriorityCalculator := Endpoint.id.

(** [std::min(a, b)] on two random-access iterators, as offsets from
    [begin()]: [(b < a) ? b : a]. *)
Definition std_min (a b : nat) : nat := if decide (b < a)%nat then b else a.

(** [priorities[id] == *std::min(priorities.begin(), priorities.end())] *)
Definition isOptimalEndpoint (id : size_t) (b : t) : option bool :=
  p ← priorities b !! N.to_nat id;
  m ← priorities b !! std_min 0 (length (priorities b));
  Some (bool_decide (p = m)).

Definition getHostWithSetting (id : size_t) (b : t) : option EndpointInfo.t :=
  optimal ← isOptimalEndpoint id b;
  if optimal : bool then asOptimalEndpoint id (registry b)
  else asTemporaryEndpoint id (registry b).

(** The loop of [getMostPriority] over [endpoints_index], with the
    variables [min_priority] and [min_id]; the test [min_priority > p] is
    written [p < min_priority]. *)
Fixpoint getMostPriority_loop (priorities : list size_t) (endpoints_index : list size_t)
    (min_priority min_id : size_t) : option (size_t * size_t) :=
  match endpoints_index with
  | [] => Some (min_priority, min_id)
  | id :: rest =>
      p ← priorities !! N.to_nat id;
      if decide (p < min_priority)
      then getMostPriority_loop priorities rest p id
      else getMostPriority_loop priorities rest min_priority min_id
  end.

Definition getMostPriority (status : Status) (b : t) : option (option size_t) :=
  let endpoints_index := getRangeByStatus status (registry b) in
  '(_, min_id) ← getMostPriority_loop (priorities b) endpoints_index
                   SIZE_MAX (getEndpointsCount (registry b));
  if decide (min_id = getEndpointsCount (registry b)) then Some None
  else Some (Some min_id).

Definition getHostToConnect (b : t) : Result t EndpointInfo.t :=
  match getMostPriority ONLINE b with
  | None => Undefined
  | Some (Some id) => returning b (getHostWithSetting id b)
  | Some None =>
      match getMostPriority UNDEF b with
      | None => Undefined
      | Some (Some id) => returning b (getHostWithSetting id b)
      | Some None =>
          withState (λ r, mk r (priorities b)) (noEndpointsLeft (registry b))
      end
  end.

(** One of the two loops of [endpointsWorthChecking], appending to
    [endpoints]. *)
Fixpoint worthChecking_loop (b : t) (current : size_t) (current_id_set : bool)
    (range : list size_t) (endpoints : list EndpointInfo.t)
  : option (list EndpointInfo.t) :=
  match range with
  | [] => Some endpoints
  | endpoint :: rest =>
      cond ← (if current_id_set then Some true
              else
                pe ← priorities b !! N.to_nat endpoint;
                pc ← priorities b !! N.to_nat current;
                Some (bool_decide (pe < pc)));
      if cond : bool
      then
        info ← getHostWithSetting endpoint b;
        worthChecking_loop b current current_id_set rest (endpoints ++ [info])
      else worthChecking_loop b current current_id_set rest endpoints
  end.

Definition endpointsWorthChecking (current_endpoint_id : option size_t) (b : t)
  : option (list EndpointInfo.t) :=
  let current := default (getEndpointsCount (registry b)) current_endpoint_id in
  let current_id_set := bool_decide (is_Some current_endpoint_id) in
  endpoints ← worthChecking_loop b current current_id_set
                (getRangeByStatus UNDEF (registry b)) [];
  worthChecking_loop b current current_id_set
    (getRangeByStatus OFFLINE (registry b)) endpoints.

Definition hasBetterHostToConnect (current_endpoint_id : size_t) (b : t)
  : option bool :=
  id ← getMostPriority ONLINE b;
  match id with
  | Some id => Some (bool_decide (id ≠ current_endpoint_id))
  | None => Some false
  end.
End IBalancerWithPriorities.

(** ** RoundRobin *)

Module RoundRobin.
Record t := mk { registry : EndpointRegistry; round_robin_id : size_t }.

Definition new (hosts : list string) : t :=
  {| registry := IBalancerWithEndpointStatuses hosts; round_robin_id := 0 |}.

(** [round_robin_id = (id + 1) % getEndpointsCount(); return asOptimalEndpoint(id)];
    the remainder by zero is undefined. *)
Definition selectEndpoint (id : size_t) (b : t) : Result t EndpointInfo.t :=
  let count := getEndpointsCount (registry b) in
  if decide (count = 0) then Undefined
  else
    let b' := {| registry := registry b; round_robin_id := size_add id 1 mod count |} in
    returning b' (asOptimalEndpoint id (registry b')).

Definition getHostToConnect (b : t) : Result t EndpointInfo.t :=
  match findEndpointById (round_robin_id b) (registry b) with
  | None => Undefined
  | Some endpoint =>
      let round_robin_status := Endpoint.status endpoint in
      if decide (round_robin_status = ONLINE) then selectEndpoint (round_robin_id b) b
      else
        let online_endpoints := getRangeByStatus ONLINE (registry b) in
        if decide (online_endpoints ≠ [])
        then match online_endpoints !! 0%nat with
             | Some id => selectEndpoint id b
             | None => Undefined
             end
        else if decide (round_robin_status = UNDEF)
        then returning b (asOptimalEndpoint (round_robin_id b) (registry b))
        else
          let undef_endpoints := getRangeByStatus UNDEF (registry b) in
          if decide (undef_endpoints ≠ [])
          then match undef_endpoints !! 0%nat with
               | Some id => selectEndpoint id b
               | None => Undefined
               end
          else withState (λ r, mk r (round_robin_id b)) (noEndpointsLeft (registry b))
  end.

Definition endpointsWorthChecking (current_endpoint_id : option size_t) (b : t)
  : option (list EndpointInfo.t) := Some [].

Definition hasBetterHostToConnect (current_endpoint_id : size_t) (b : t)
  : option bool := Some false.
End RoundRobin.

(** ** FirstOrRandom *)

Module FirstOrRandom.
Record t := mk { registry : EndpointRegistry }.

Definition new (hosts : list string) : t :=
  {| registry := IBalancerWithEndpointStatuses hosts |}.

Definition getHostFrom (range : list size_t) (g : N) (b : t) : option EndpointInfo.t :=
  id ← drawFrom range g;
  asTemporaryEndpoint id (registry b).

Definition getHostToConnect (g : N) (b : t) : Result t EndpointInfo.t :=
  match findEndpointById 0 (registry b) with
  | None => Undefined
  | Some endpoint =>
      let first_status := Endpoint.status endpoint in
      if decide (first_status = ONLINE)
      then returning b (asOptimalEndpoint 0 (registry b))
      else
        let range := getRangeByStatus ONLINE (registry b) in
        if decide (range ≠ []) then returning b (getHostFrom range g b)
        else if decide (first_status = UNDEF)
        then returning b (asOptimalEndpoint 0 (registry b))
        else
          let range := getRangeByStatus UNDEF (registry b) in
          if decide (range ≠ []) then returning b (getHostFrom range g b)
          else withState mk (noEndpointsLeft (registry b))
  end.

Definition endpointsWorthChecking (current_endpoint_id : option size_t) (b : t)
  : option (list EndpointInfo.t) :=
  if bool_decide (current_endpoint_id = Some 0) then Some []
  else info ← asOptimalEndpoint 0 (registry b); Some [info].

Definition hasBetterHostToConnect (current_endpoint_id : size_t) (b : t)
  : option bool :=
  endpoint ← findEndpointById 0 (registry b);
  Some (bool_decide (Endpoint.status endpoint = ONLINE)
        && bool_decide (current_endpoint_id ≠ 0)).
End FirstOrRandom.

(** ** The balancer behind [ClientsConnectionBalancerPtr]

    Virtual dispatch over the four classes. *)

Inductive ClientsConnectionBalancer :=
| RandomBalancer (b : Random.t)
| PrioritiesBalancer (b : IBalancerWithPriorities.t)
| RoundRobinBalancer (b : RoundRobin.t)
| FirstOrRandomBalancer (b : FirstOrRandom.t).

Definition registryOf (b : ClientsConnectionBalancer) : EndpointRegistry :=
  match b with
  | RandomBalancer b => Random.registry b
  | PrioritiesBalancer b => IBalancerWithPriorities.registry b
  | RoundRobinBalancer b => RoundRobin.registry b
  | FirstOrRandomBalancer b => FirstOrRandom.registry b
  end.

(** The balancer with the member [registry] replaced. *)
Definition withRegistry (r : EndpointRegistry) (b : ClientsConnectionBalancer)
  : ClientsConnectionBalancer :=
  match b with
  | RandomBalancer _ => RandomBalancer (Random.mk r)
  | PrioritiesBalancer b =>
      PrioritiesBalancer (IBalancerWithPriorities.mk r (IBalancerWithPriorities.priorities b))
  | RoundRobinBalancer b => RoundRobinBalancer (RoundRobin.mk r (RoundRobin.round_robin_id b))
  | FirstOrRandomBalancer _ => FirstOrRandomBalancer (FirstOrRandom.mk r)
  end.

Module Balancer.
Definition markHostOffline (id : size_t) (b : ClientsConnectionBalancer)
  : option ClientsConnectionBalancer :=
  r ← markHostOffline id (registryOf b); Some (withRegistry r b).

Definition markHostOnline (id : size_t) (b : ClientsConnectionBalancer)
  : option ClientsConnectionBalancer :=
  r ← markHostOnline id (registryOf b); Some (withRegistry r b).

Definition resetOfflineStatuses (b : ClientsConnectionBalancer)
  : ClientsConnectionBalancer :=
  withRegistry (resetOfflineStatuses (registryOf b)) b.

Definition getEndpointsCount (b : ClientsConnectionBalancer) : size_t :=
  getEndpointsCount (registryOf b).

Definition getAvailableEndpointsCount (b : ClientsConnectionBalancer) : size_t :=
  getAvailableEndpointsCount (registryOf b).

Definition getHostToConnect (g : N) (b : ClientsConnectionBalancer)
  : Result ClientsConnectionBalancer EndpointInfo.t :=
  match b with
  | RandomBalancer b => withState RandomBalancer (Random.getHostToConnect g b)
  | PrioritiesBalancer b =>
      withState PrioritiesBalancer (IBalancerWithPriorities.getHostToConnect b)
  | RoundRobinBalancer b => withState RoundRobinBalancer (RoundRobin.getHostToConnect b)
  | FirstOrRandomBalancer b =>
      withState FirstOrRandomBalancer (FirstOrRandom.getHostToConnect g b)
  end.

Definition endpointsWorthChecking (current_endpoint_id : option size_t)
    (b : ClientsConnectionBalancer) : option (list EndpointInfo.t) :=
  match b with
  | RandomBalancer b => Random.endpointsWorthChecking current_endpoint_id b
  | PrioritiesBalancer b =>
      IBalancerWithPriorities.endpointsWorthChecking current_endpoint_id b
  | RoundRobinBalancer b => RoundRobin.endpointsWorthChecking current_endpoint_id b
  | FirstOrRandomBalancer b => FirstOrRandom.endpointsWorthChecking current_endpoint_id b
  end.

Definition hasBetterHostToConnect (current_endpoint_id : size_t)
    (b : ClientsConnectionBalancer) : option bool :=
  match b with
  | RandomBalancer b => Random.hasBetterHostToConnect current_endpoint_id b
  | PrioritiesBalancer b =>
      IBalancerWithPriorities.hasBetterHostToConnect current_endpoint_id b
  | RoundRobinBalancer b => RoundRobin.hasBetterHostToConnect current_endpoint_id b
  | FirstOrRandomBalancer b => FirstOrRandom.hasBetterHostToConnect current_endpoint_id b
  end.
End Balancer.

(** ** The factory *)

Inductive LoadBalancing :=
| RANDOM
| NEAREST_HOSTNAME
| HOSTNAME_LEVENSHTEIN_DISTANCE
| IN_ORDER
| FIRST_OR_RANDOM
| ROUND_ROBIN.

(** What the priority calculators call outside this file: the name of the
    local host and the two distances between host names, each a [size_t]. *)
Record HostMetrics := {
  getFQDNOrHostName : string;
  getHostNamePrefixDistance : string → string → size_t;
  getHostNameLevenshteinDistance : string → string → size_t
}.

Definition priorityAsNearestHostname (metrics : HostMetrics)
  : IBalancerWithPriorities.PriorityCalculator :=
  λ endpoint,
    getHostNamePrefixDistance metrics (getFQDNOrHostName metrics) (Endpoint.address endpoint).

Definition priorityAsLevenshtein (metrics : HostMetrics)
  : IBalancerWithPriorities.PriorityCalculator :=
  λ endpoint,
    getHostNameLevenshteinDistance metrics (getFQDNOrHostName metrics)
      (Endpoint.address endpoint).

Definition getConnectionBalancer (metrics : HostMetrics)
    (load_balancing_type : LoadBalancing) (hosts : list string)
  : ClientsConnectionBalancer :=
  match load_balancing_type with
  | RANDOM => RandomBalancer (Random.new hosts)
  | NEAREST_HOSTNAME =>
      PrioritiesBalancer
        (IBalancerWithPriorities.new hosts (priorityAsNearestHostname metrics))
  | HOSTNAME_LEVENSHTEIN_DISTANCE =>
      PrioritiesBalancer
        (IBalancerWithPriorities.new hosts (priorityAsLevenshtein metrics))
  | IN_ORDER =>
      PrioritiesBalancer
        (IBalancerWithPriorities.new hosts IBalancerWithPriorities.priorityAsInOrer)
  | FIRST_OR_RANDOM => FirstOrRandomBalancer (FirstOrRandom.new hosts)
  | ROUND_ROBIN => RoundRobinBalancer (RoundRobin.new hosts)
  end.

(** ** ZooKeeperLoadBalancer *)

Record SessionLifetime := { min_sec : N; max_sec : N }.

Record ZooKeeperArgs := {
  hosts : list string;
  load_balancing : LoadBalancing;
  fallback_session_lifetime : SessionLifetime
}.

Record ZooKeeperLoadBalancer := {
  args : option ZooKeeperArgs;
  connection_balancer : option ClientsConnectionBalancer
}.

(** The object the constructor leaves: nothing initialised yet. *)
Definition newZooKeeperLoadBalancer : ZooKeeperLoadBalancer :=
  {| args := None; connection_balancer := None |}.

Definition init (metrics : HostMetrics) (args_ : ZooKeeperArgs) (lb : ZooKeeperLoadBalancer)
  : Result ZooKeeperLoadBalancer unit :=
  if decide (hosts args_ = [])
  then Throws (KeeperException ZBADARGUMENTS "No hosts specified in ZooKeeperArgs.") lb
  else
    Returns ()
      {| args := Some args_;
         connection_balancer :=
           Some (getConnectionBalancer metrics (load_balancing args_) (hosts args_)) |}.

Definition throwWhenNoHostAvailable (dns_error_occurred : bool) : Exception :=
  if dns_error_occurred
  then KeeperException ZCONNECTIONLOSS
         "Cannot resolve any of provided ZooKeeper hosts due to DNS error"
  else KeeperException ZCONNECTIONLOSS "Cannot use any of provided ZooKeeper nodes".

(** What the construction of [Poco::Net::SocketAddress] does. *)
Inductive Resolution := Resolved | Raises (e : NetException).

(** [Coordination::ZooKeeper::Node]; [original_index] is a [UInt8]. *)
Record Node := {
  node_address : string;
  original_index : N;
  node_secure : bool
}.

(** The session handed back; [session_deadline] holds the arguments of
    [setClientSessionDeadline] when it was called. *)
Record ZooKeeperClient := {
  node : Node;
  session_deadline : option SessionLifetime
}.

(** The collaborators of the connection loop, each asked at the attempt
    with the given number: the resolver when [isKeeperHostDNSAvailable]
    builds the socket address, the resolver when [createClient] builds the
    socket address of the node, the constructor of [Coordination::ZooKeeper]
    ([false]: it throws a [DB::Exception]) and the random generator. *)
Record Environment := {
  resolve : nat → string → Resolution;
  resolve_again : nat → string → Resolution;
  connect : nat → Node → bool;
  thread_local_rng : nat → N
}.

(** [isKeeperHostDNSAvailable]: the answer, with the flag
    [dns_error_occurred] afterwards as the state.  The two handlers catch
    [HostNotFoundException] and [DNSException]; any other exception leaves
    the function. *)
Definition isKeeperHostDNSAvailable (env : Environment) (attempt : nat) (address : string)
    (dns_error_occurred : bool) : Result bool bool :=
  match resolve env attempt address with
  | Resolved => Returns true dns_error_occurred
  | Raises HostNotFoundException => Returns false dns_error_occurred
  | Raises DNSException => Returns false true
  | Raises e => Throws (PocoException e) dns_error_occurred
  end.

(** The loop [while (true)] of [createClient], for at most [fuel] rounds;
    [None] when the rounds are used up.  Nothing catches what
    [getHostToConnect] throws: it leaves [createClient].  So does what the
    socket address of the node throws: the handler of the [try] block is
    for [DB::Exception], and the endpoint is left as it was. *)
Fixpoint createClient_loop (env : Environment) (args : ZooKeeperArgs) (fuel : nat)
    (attempts : nat) (dns_error_occurred : bool) (balancer : ClientsConnectionBalancer)
  : option (Result ClientsConnectionBalancer ZooKeeperClient) :=
  match fuel with
  | O => None
  | S fuel' =>
      let attempts := S attempts in
      match Balancer.getHostToConnect (thread_local_rng env attempts) balancer with
      | Undefined => Some Undefined
      | Throws e balancer => Some (Throws e balancer)
      | Returns endpoint balancer =>
          match isKeeperHostDNSAvailable env attempts (EndpointInfo.address endpoint)
                  dns_error_occurred with
          | Undefined => Some Undefined
          | Throws e _ => Some (Throws e balancer)
          | Returns false dns_error_occurred =>
              match Balancer.markHostOffline (EndpointInfo.id endpoint) balancer with
              | None => Some Undefined
              | Some balancer =>
                  createClient_loop env args fuel' attempts dns_error_occurred balancer
              end
          | Returns true dns_error_occurred =>
              match resolve_again env attempts (EndpointInfo.address endpoint) with
              | Raises e => Some (Throws (PocoException e) balancer)
              | Resolved =>
                  let zknode :=
                    {| node_address := EndpointInfo.address endpoint;
                       original_index := EndpointInfo.id endpoint mod 256;
                       node_secure := EndpointInfo.secure endpoint |} in
                  if connect env attempts zknode
                  then
                    let client :=
                      {| node := zknode;
                         session_deadline :=
                           if use_fallback_session_lifetime (EndpointInfo.settings endpoint)
                           then Some (fallback_session_lifetime args)
                           else None |} in
                    match Balancer.markHostOnline (EndpointInfo.id endpoint) balancer with
                    | None => Some Undefined
                    | Some balancer =>
                        match Balancer.hasBetterHostToConnect
                                (EndpointInfo.id endpoint) balancer with
                        | None => Some Undefined
                        | Some true =>
                            createClient_loop env args fuel' attempts dns_error_occurred
                              balancer
                        | Some false => Some (Returns client balancer)
                        end
                    end
                  else
                    match Balancer.markHostOffline (EndpointInfo.id endpoint) balancer with
                    | None => Some Undefined
                    | Some balancer =>
                        createClient_loop env args fuel' attempts dns_error_occurred
                          balancer
                    end
              end
          end
      end
  end.

Definition createClient (env : Environment) (fuel : nat) (lb : ZooKeeperLoadBalancer)
  : option (Result ZooKeeperLoadBalancer ZooKeeperClient) :=
  match args lb, connection_balancer lb with
  | Some args, Some balancer =>
      withState (λ balancer, {| args := Some args; connection_balancer := Some balancer |})
        <$> createClient_loop env args fuel 0 false balancer
  | _, _ => Some Undefined
  end.

(** ** Sequences of calls on a balancer *)

Inductive Update :=
| MarkHostOnline (id : size_t)
| MarkHostOffline (id : size_t)
| ResetOfflineStatuses
| GetHostToConnect (g : N).

(** One call; [None] when it leaves defined behaviour.  A selection counts
    for what it does to the balancer, whether it returns or throws. *)
Definition applyUpdate (u : Update) (b : ClientsConnectionBalancer)
  : option ClientsConnectionBalancer :=
  match u with
  | MarkHostOnline id => Balancer.markHostOnline id b
  | MarkHostOffline id => Balancer.markHostOffline id b
  | ResetOfflineStatuses => Some (Balancer.resetOfflineStatuses b)
  | GetHostToConnect g =>
      match Balancer.getHostToConnect g b with
      | Returns _ b' => Some b'
      | Throws _ b' => Some b'
      | Undefined => None
      end
  end.

Fixpoint applyUpdates (us : list Update) (b : ClientsConnectionBalancer)
  : option ClientsConnectionBalancer :=
  match us with
  | [] => Some b
  | u :: us' => b' ← applyUpdate u b; applyUpdates us' b'
  end.

(** * Notions used in the statements *)

(** ** Registries and selections *)

(** Invariant 1 of the data model: every endpoint carries its own index. *)
Definition ids_dense (r : EndpointRegistry) : Prop :=
  ∀ i endpoint, endpoints r !! i = Some endpoint → Endpoint.id endpoint = N.of_nat i.

(** No endpoint is [ONLINE] or [UNDEF]. *)
Definition none_available (r : EndpointRegistry) : Prop :=
  Forall (λ endpoint, Endpoint.status endpoint = OFFLINE) (endpoints r).

(** The endpoint [id] is [ONLINE] or [UNDEF]. *)
Definition available (r : EndpointRegistry) (id : size_t) : Prop :=
  statusOf r id = Some ONLINE ∨ statusOf r id = Some UNDEF.

(** The two outcomes of [getHostToConnect] on a balancer whose registry is
    [r]: an endpoint that is [ONLINE] or [UNDEF], the registry [r'] being
    [r]; or, no endpoint being [ONLINE] or [UNDEF], the registry reset and
    [ALL_CONNECTION_TRIES_FAILED]. *)
Definition selected {S : Type} (registry : S → EndpointRegistry) (b : S)
    (res : Result S EndpointInfo.t) : Prop :=
  match res with
  | Returns info b' =>
      available (registry b) (EndpointInfo.id info) ∧ registry b' = registry b
  | Throws e b' =>
      none_available (registry b) ∧
      e = noAvailableEndpoints (getEndpointsCount (registry b)) ∧
      registry b' = resetOfflineStatuses (registry b)
  | Undefined => False
  end.

(** ** Priorities *)

(** The priority of endpoint [id], when the vector has one. *)
Definition priorityOf (b : IBalancerWithPriorities.t) (id : size_t) : option size_t :=
  IBalancerWithPriorities.priorities b !! N.to_nat id.

(** [id] has status [s], and every endpoint of status [s] has a higher
    priority value than [id], or the same value and an id that is not
    lower. *)
Definition most_priority (b : IBalancerWithPriorities.t) (s : Status) (id : size_t)
  : Prop :=
  statusOf (IBalancerWithPriorities.registry b) id = Some s ∧
  ∃ p, priorityOf b id = Some p ∧
       ∀ j q, statusOf (IBalancerWithPriorities.registry b) j = Some s →
              priorityOf b j = Some q → p < q ∨ (p = q ∧ id ≤ j).

(** What the two-argument constructor establishes and every call keeps:
    one priority per endpoint. *)
Definition priorities_wf (b : IBalancerWithPriorities.t) : Prop :=
  ids_dense (IBalancerWithPriorities.registry b) ∧
  length (IBalancerWithPriorities.priorities b) =
    length (endpoints (IBalancerWithPriorities.registry b)).

(** No priority is the value [min_priority] starts from. *)
Definition priorities_below_max (b : IBalancerWithPriorities.t) : Prop :=
  Forall (λ p, p < SIZE_MAX) (IBalancerWithPriorities.priorities b).

(** ** Balancers behind the interface *)

(** What the constructors establish and every call keeps: dense ids; for
    the policies that draw, at most [2^31] endpoints; for the
    priority-ordered ones, one priority below [SIZE_MAX] per endpoint; for
    the round robin, a cursor inside the registry. *)
Definition wf (b : ClientsConnectionBalancer) : Prop :=
  ids_dense (registryOf b) ∧
  match b with
  | RandomBalancer b => getEndpointsCount (Random.registry b) ≤ 2 ^ 31
  | PrioritiesBalancer b => priorities_wf b ∧ priorities_below_max b
  | RoundRobinBalancer b =>
      RoundRobin.round_robin_id b < getEndpointsCount (RoundRobin.registry b)
  | FirstOrRandomBalancer b => 0 < getEndpointsCount (FirstOrRandom.registry b) ≤ 2 ^ 31
  end.

(** The two balancers differ at most in the cursor of the round robin. *)
Definition same_but_cursor (b b' : ClientsConnectionBalancer) : Prop :=
  match b, b' with
  | RoundRobinBalancer x, RoundRobinBalancer y => RoundRobin.registry y = RoundRobin.registry x
  | _, _ => b' = b
  end.

(** The two distances from the local host to the configured hosts are
    below [SIZE_MAX]: no host name is that long. *)
Definition metrics_bounded (metrics : HostMetrics) (hosts : list string) : Prop :=
  ∀ raw_host, raw_host ∈ hosts →
    let address := (parseForSocketAddress raw_host).1 in
    getHostNamePrefixDistance metrics (getFQDNOrHostName metrics) address < SIZE_MAX ∧
    getHostNameLevenshteinDistance metrics (getFQDNOrHostName metrics) address < SIZE_MAX.

(** ** Concrete balancers *)

(** Single-letter host names: the Levenshtein distance of two of them is
    0 or 1; the local host is [b]. *)
Definition example_metrics : HostMetrics :=
  {| getFQDNOrHostName := "b";
     getHostNamePrefixDistance := λ local_hostname host,
       if decide (local_hostname = host) then 0 else 1;
     getHostNameLevenshteinDistance := λ local_hostname host,
       if decide (local_hostname = host) then 0 else 1 |}.

(** Three hosts, the last one behind [secure://]. *)
Definition example_args (load_balancing_type : LoadBalancing) : ZooKeeperArgs :=
  {| hosts := ["a"; "b"; "secure://c"];
     load_balancing := load_balancing_type;
     fallback_session_lifetime := {| min_sec := 180; max_sec := 300 |} |}.

(** What [init] builds from [example_args]. *)
Definition example_balancer (load_balancing_type : LoadBalancing)
  : ClientsConnectionBalancer :=
  getConnectionBalancer example_metrics load_balancing_type
    (hosts (example_args load_balancing_type)).

(** The load balancer after [init]. *)
Definition example_lb (load_balancing_type : LoadBalancing) : ZooKeeperLoadBalancer :=
  {| args := Some (example_args load_balancing_type);
     connection_balancer := Some (example_balancer load_balancing_type) |}.

(** The Levenshtein balancer (priorities [1; 0; 1]) with endpoints 0 and 2
    [ONLINE] and endpoint 1 [OFFLINE]. *)
Definition example_priorities : IBalancerWithPriorities.t :=
  Eval vm_compute in
    match applyUpdates [MarkHostOnline 0; MarkHostOnline 2; MarkHostOffline 1]
            (example_balancer HOSTNAME_LEVENSHTEIN_DISTANCE) with
    | Some (PrioritiesBalancer b) => b
    | _ => IBalancerWithPriorities.new [] (priorityAsLevenshtein example_metrics)
    end.

(** The first-or-random balancer with endpoint 0 [OFFLINE] and endpoints 1
    and 2 [ONLINE]. *)
Definition example_first_or_random : FirstOrRandom.t :=
  Eval vm_compute in
    match applyUpdates [MarkHostOffline 0; MarkHostOnline 2; MarkHostOnline 1]
            (example_balancer FIRST_OR_RANDOM) with
    | Some (FirstOrRandomBalancer b) => b
    | _ => FirstOrRandom.new []
    end.


(** The resolver fails for every host with a transient DNS error. *)
Definition example_dns_down : Environment :=
  {| resolve := λ _ _, Raises DNSException;
     resolve_again := λ _ _, Raises DNSException;
     connect := λ _ _, true;
     thread_local_rng := λ _, 0 |}.

(** A priority-ordered balancer over one host of priority [SIZE_MAX],
    after [markHostOnline(0)]. *)
Definition example_max_priority : IBalancerWithPriorities.t :=
  Eval vm_compute in
    match applyUpdates [MarkHostOnline 0]
            (PrioritiesBalancer (IBalancerWithPriorities.new ["a"] (λ _, SIZE_MAX))) with
    | Some (PrioritiesBalancer b) => b
    | _ => IBalancerWithPriorities.new [] (λ _, SIZE_MAX)
    end.

(** ** Rounds of the round robin *)

(** [rounds] times [getHostToConnect(); markHostOnline(result.id)]: the ids
    selected, in order. *)
Fixpoint selectAndMarkOnline (rounds : nat) (b : RoundRobin.t) : option (list size_t) :=
  match rounds with
  | O => Some []
  | S rounds' =>
      match RoundRobin.getHostToConnect b with
      | Returns info b' =>
          r ← markHostOnline (EndpointInfo.id info) (RoundRobin.registry b');
          ids ← selectAndMarkOnline rounds' (RoundRobin.mk r (RoundRobin.round_robin_id b'));
          Some (EndpointInfo.id info :: ids)
      | _ => None
      end
  end.



(** ** Further notions *)

(** The endpoint the constructor registers for [raw_host] at position
    [id]. *)
Definition hostEndpoint (raw_host : string) (id : size_t) : Endpoint.t :=
  {| Endpoint.address := (parseForSocketAddress raw_host).1;
     Endpoint.secure := (parseForSocketAddress raw_host).2;
     Endpoint.id := id;
     Endpoint.status := UNDEF |}.

(** The configuration string of an endpoint: the address, behind the token
    [secure://] when the endpoint is secure. *)
Definition rawHost (address : string) (secure : bool) : string :=
  if secure then "secure://" +:+ address else address.

(** The Random balancer with endpoint 1 [OFFLINE] and the others [UNDEF]. *)
Definition example_random : Random.t :=
  Eval vm_compute in
    match applyUpdates [MarkHostOffline 1] (example_balancer RANDOM) with
    | Some (RandomBalancer b) => b
    | _ => Random.new []
    end.

(** The round robin over three hosts with endpoint 2 [ONLINE]. *)
Definition example_round_robin : RoundRobin.t :=
  Eval vm_compute in
    match applyUpdates [MarkHostOnline 2] (example_balancer ROUND_ROBIN) with
    | Some (RoundRobinBalancer b) => b
    | _ => RoundRobin.new []
    end.

(** The round robin over three hosts, all [ONLINE], the cursor at 0. *)
Definition example_all_online : RoundRobin.t :=
  Eval vm_compute in
    match applyUpdates [MarkHostOnline 0; MarkHostOnline 1; MarkHostOnline 2]
            (example_balancer ROUND_ROBIN) with
    | Some (RoundRobinBalancer b) => b
    | _ => RoundRobin.new []
    end.

(** Every endpoint of the in-order balancer over three hosts is
    [OFFLINE]. *)
Definition example_exhausted : ClientsConnectionBalancer :=
  Eval vm_compute in
    default (example_balancer IN_ORDER)
      (applyUpdates [MarkHostOffline 0; MarkHostOffline 1; MarkHostOffline 2]
         (example_balancer IN_ORDER)).

(** The node [createClient] connects to for a selected endpoint;
    [original_index] is the id cut to a [UInt8]. *)
Definition nodeOf (endpoint : EndpointInfo.t) : Node :=
  {| node_address := EndpointInfo.address endpoint;
     original_index := EndpointInfo.id endpoint mod 256;
     node_secure := EndpointInfo.secure endpoint |}.

(** The endpoint [info] carries what the registry holds for its id. *)
Definition describes (r : EndpointRegistry) (info : EndpointInfo.t) : Prop :=
  ∃ endpoint,
    findEndpointById (EndpointInfo.id info) r = Some endpoint ∧
    EndpointInfo.address info = Endpoint.address endpoint ∧
    EndpointInfo.secure info = Endpoint.secure endpoint.

(** The number of endpoints that are not [OFFLINE]. *)
Definition availableEndpoints (r : EndpointRegistry) : nat :=
  (length (getRangeByStatus ONLINE r) + length (getRangeByStatus UNDEF r))%nat.

(** The session [createClient] builds on a selected endpoint. *)
Definition clientOf (args : ZooKeeperArgs) (endpoint : EndpointInfo.t) : ZooKeeperClient :=
  {| node := nodeOf endpoint;
     session_deadline :=
       if use_fallback_session_lifetime (EndpointInfo.settings endpoint)
       then Some (fallback_session_lifetime args)
       else None |}.

(** [client] is the session of an endpoint that was selected at an attempt
    [k] after [first] and not after [last], resolved both times and accepted
    the connection at that attempt, and is [ONLINE] in [b']. *)
Definition connected (env : Environment) (args : ZooKeeperArgs) (first last : nat)
    (b' : ClientsConnectionBalancer) (client : ZooKeeperClient) : Prop :=
  ∃ info k,
    (first < k ≤ last)%nat ∧ client = clientOf args info ∧
    describes (registryOf b') info ∧
    statusOf (registryOf b') (EndpointInfo.id info) = Some ONLINE ∧
    resolve env k (EndpointInfo.address info) = Resolved ∧
    resolve_again env k (EndpointInfo.address info) = Resolved ∧
    connect env k (nodeOf info) = true.

(** [e] is an exception of Poco that the resolver raised at an attempt [k]
    after [first] and not after [last] for the address of an endpoint of
    [b']: at the probe, where it is neither of the two exceptions
    [isKeeperHostDNSAvailable] catches, or, the probe passed, at the socket
    address of the node. *)
Definition unresolved (env : Environment) (first last : nat)
    (b' : ClientsConnectionBalancer) (e : Exception) : Prop :=
  ∃ info k p,
    (first < k ≤ last)%nat ∧ e = PocoException p ∧
    describes (registryOf b') info ∧
    (resolve env k (EndpointInfo.address info) = Raises p ∧
     p ≠ HostNotFoundException ∧ p ≠ DNSException ∨
     resolve env k (EndpointInfo.address info) = Resolved ∧
     resolve_again env k (EndpointInfo.address info) = Raises p).

(** How the loop of [createClient] ends when it is entered after attempt
    [first], over [count] endpoints, and left not after attempt [last]: with
    a session, with the [ALL_CONNECTION_TRIES_FAILED] of the balancer and
    every endpoint [UNDEF], or with an exception of Poco. *)
Definition loop_ended (env : Environment) (args : ZooKeeperArgs) (first last : nat)
    (count : size_t) (res : option (Result ClientsConnectionBalancer ZooKeeperClient))
  : Prop :=
  match res with
  | Some (Returns client b') => connected env args first last b' client
  | Some (Throws e b') =>
      e = noAvailableEndpoints count ∧
      Forall (λ endpoint, Endpoint.status endpoint = UNDEF) (endpoints (registryOf b')) ∨
      unresolved env first last b' e
  | _ => False
  end.


(** What never changes of an endpoint. *)
Definition identity (endpoint : Endpoint.t) : string * bool * size_t :=
  (Endpoint.address endpoint, Endpoint.secure endpoint, Endpoint.id endpoint).


(** Every host resolves and accepts the connection. *)
Definition example_all_up : Environment :=
  {| resolve := λ _ _, Resolved;
     resolve_again := λ _ _, Resolved;
     connect := λ _ _, true;
     thread_local_rng := λ _, 0 |}.

(** Every host resolves and none accepts the connection. *)
Definition example_all_refuse : Environment :=
  {| resolve := λ _ _, Resolved;
     resolve_again := λ _ _, Resolved;
     connect := λ _ _, false;
     thread_local_rng := λ _, 0 |}.

(** * Properties *)

(** ** The registry *)

Lemma set_status_same endpoint :
  Endpoint.set_status (Endpoint.status endpoint) endpoint = endpoint.
Proof. by destruct endpoint. Qed.

Lemma resetOfflineStatus_status endpoint :
  Endpoint.status (resetOfflineStatus endpoint) =
  if decide (Endpoint.status endpoint = OFFLINE) then UNDEF else Endpoint.status endpoint.
Proof. unfold resetOfflineStatus. by case_decide. Qed.

Lemma resetOfflineStatus_id endpoint :
  Endpoint.id (resetOfflineStatus endpoint) = Endpoint.id endpoint.
Proof. unfold resetOfflineStatus. by case_decide. Qed.

Lemma getEndpointsCount_reset r :
  getEndpointsCount (resetOfflineStatuses r) = getEndpointsCount r.
Proof. unfold getEndpointsCount, resetOfflineStatuses. simpl. by rewrite length_fmap. Qed.

Lemma ids_dense_reset r : ids_dense r → ids_dense (resetOfflineStatuses r).
Proof.
  intros Hr i endpoint. unfold resetOfflineStatuses. simpl.
  rewrite list_lookup_fmap_Some. intros (e & -> & He).
  rewrite resetOfflineStatus_id. eauto.
Qed.

Lemma markHost_Some s id r :
  id < getEndpointsCount r → is_Some (markHost s id r).
Proof. intros Hid. unfold markHost. rewrite decide_True; eauto. Qed.

Lemma markHost_inv s id r r' :
  markHost s id r = Some r' →
  id < getEndpointsCount r ∧
  endpoints r' = alter (Endpoint.set_status s) (N.to_nat id) (endpoints r).
Proof. unfold markHost. case_decide; naive_solver. Qed.

Lemma getEndpointsCount_markHost s id r r' :
  markHost s id r = Some r' → getEndpointsCount r' = getEndpointsCount r.
Proof.
  intros [_ Hr']%markHost_inv. unfold getEndpointsCount.
  by rewrite Hr', length_alter.
Qed.

Lemma ids_dense_markHost s id r r' :
  markHost s id r = Some r' → ids_dense r → ids_dense r'.
Proof.
  intros [_ Hr']%markHost_inv Hr i endpoint. rewrite Hr', list_lookup_alter.
  case_decide; [|by eauto].
  destruct (endpoints r !! N.to_nat id) as [e|] eqn:He; [|done].
  simpl. intros [= <-]. subst i. simpl. eauto.
Qed.

Lemma statusOf_markHost s id r r' j :
  markHost s id r = Some r' →
  statusOf r' j = if decide (j = id) then Some s else statusOf r j.
Proof.
  intros [Hid Hr']%markHost_inv. unfold statusOf, findEndpointById.
  rewrite Hr', list_lookup_alter. unfold getEndpointsCount in Hid.
  case_decide as Hj.
  - apply N2Nat.inj in Hj. subst j. rewrite decide_True by done.
    destruct (lookup_lt_is_Some_2 (endpoints r) (N.to_nat id)) as [e He]; [lia|].
    by rewrite He.
  - rewrite decide_False; [done|]. by intros ->.
Qed.

Lemma statusOf_reset r id :
  statusOf (resetOfflineStatuses r) id =
  (λ s, if decide (s = OFFLINE) then UNDEF else s) <$> statusOf r id.
Proof.
  unfold statusOf, findEndpointById, resetOfflineStatuses. simpl.
  rewrite list_lookup_fmap.
  destruct (endpoints r !! N.to_nat id) as [e|]; [|done].
  simpl. by rewrite resetOfflineStatus_status.
Qed.

(** On a registry with every endpoint [OFFLINE], the reset leaves every
    endpoint [UNDEF]. *)
Lemma reset_all_undef r :
  none_available r →
  Forall (λ endpoint, Endpoint.status endpoint = UNDEF) (endpoints (resetOfflineStatuses r)).
Proof.
  unfold none_available, resetOfflineStatuses. simpl. intros Hnone.
  apply Forall_fmap. eapply Forall_impl; [exact Hnone|]. simpl. intros e He.
  by rewrite resetOfflineStatus_status, decide_True.
Qed.

(** *** The ranges by status *)

Lemma getRangeByStatus_nil s r :
  getRangeByStatus s r = [] ↔
  Forall (λ endpoint, Endpoint.status endpoint ≠ s) (endpoints r).
Proof.
  unfold getRangeByStatus. induction (endpoints r) as [|e l IH].
  - by split; [constructor|].
  - rewrite filter_cons. case_decide; simpl.
    + split; [done|]. by intros [? ?]%Forall_cons_1.
    + rewrite IH. split; [by constructor|by intros [? ?]%Forall_cons_1].
Qed.

Lemma elem_of_getRangeByStatus s r id :
  ids_dense r → (id ∈ getRangeByStatus s r ↔ statusOf r id = Some s).
Proof.
  intros Hr. unfold getRangeByStatus, statusOf, findEndpointById.
  rewrite list_elem_of_fmap. split.
  - intros (e & -> & [Hs [i Hi]%list_elem_of_lookup]%list_elem_of_filter).
    rewrite (Hr _ _ Hi), Nat2N.id, Hi. simpl. by f_equal.
  - destruct (endpoints r !! N.to_nat id) as [e|] eqn:He; [|done].
    simpl. intros [= Hs]. exists e. split.
    + rewrite (Hr _ _ He). lia.
    + apply list_elem_of_filter. split; [done|]. by eapply list_elem_of_lookup_2.
Qed.

Lemma getRangeByStatus_sorted_from (P : Endpoint.t → Prop) `{∀ e, Decision (P e)} l k :
  (∀ i endpoint, l !! i = Some endpoint → Endpoint.id endpoint = N.of_nat (k + i)) →
  StronglySorted N.lt (Endpoint.id <$> filter P l) ∧
  Forall (λ id, N.of_nat k ≤ id) (Endpoint.id <$> filter P l).
Proof.
  revert k. induction l as [|e l IH]; intros k Hl.
  - split; constructor.
  - destruct (IH (S k)) as [Hsorted Hfrom].
    { intros i e' Hi. rewrite (Hl (S i) e' Hi). f_equal. lia. }
    pose proof (Hl 0%nat e eq_refl) as He. rewrite Nat.add_0_r in He.
    rewrite filter_cons. case_decide; simpl.
    + split.
      * constructor; [done|]. eapply Forall_impl; [done|]. simpl. lia.
      * constructor; [lia|]. eapply Forall_impl; [done|]. simpl. lia.
    + split; [done|]. eapply Forall_impl; [done|]. simpl. lia.
Qed.

Lemma getRangeByStatus_sorted s r :
  ids_dense r → StronglySorted N.lt (getRangeByStatus s r).
Proof.
  intros Hr. by apply (getRangeByStatus_sorted_from _ _ 0%nat).
Qed.

Lemma ranges_nil_none_available r :
  getRangeByStatus ONLINE r = [] → getRangeByStatus UNDEF r = [] → none_available r.
Proof.
  rewrite !getRangeByStatus_nil. unfold none_available. rewrite !Forall_forall.
  intros Hon Hun e He. specialize (Hon e He). specialize (Hun e He).
  by destruct (Endpoint.status e).
Qed.

Lemma none_available_ranges r s :
  none_available r → s ≠ OFFLINE → getRangeByStatus s r = [].
Proof.
  intros Hr Hs. apply getRangeByStatus_nil. eapply Forall_impl; [exact Hr|].
  simpl. congruence.
Qed.

Lemma available_not_none r id : available r id → ¬ none_available r.
Proof.
  unfold available, statusOf, findEndpointById, none_available.
  rewrite Forall_forall. intros Hid Hall.
  destruct (endpoints r !! N.to_nat id) as [e|] eqn:He; simpl in Hid.
  - apply list_elem_of_lookup_2, Hall in He.
    destruct Hid as [[=]|[=]]; congruence.
  - by destruct Hid.
Qed.

Lemma getRangeByStatus_available s r id :
  ids_dense r → s ≠ OFFLINE → id ∈ getRangeByStatus s r → available r id.
Proof.
  intros Hr Hs Hid. apply elem_of_getRangeByStatus in Hid; [|done].
  unfold available. destruct s; naive_solver.
Qed.

Lemma getAvailableEndpointsCount_none r :
  none_available r → getAvailableEndpointsCount r = 0.
Proof.
  intros Hr. unfold getAvailableEndpointsCount.
  by rewrite !none_available_ranges.
Qed.

(** C8.  [resetOfflineStatuses] turns the status of every [OFFLINE]
    endpoint into [UNDEF] and leaves the status of every [ONLINE] and
    [UNDEF] endpoint, and the number of endpoints, as they were; and for an
    [id] of the registry, [markHostOffline(id)] followed by
    [resetOfflineStatuses()] leaves [id] in status [UNDEF]. *)
Theorem resetOfflineStatuses_spec (r : EndpointRegistry) (id : size_t) :
  id < getEndpointsCount r →
  (∀ j, statusOf (resetOfflineStatuses r) j =
        match statusOf r j with
        | Some OFFLINE => Some UNDEF
        | Some ONLINE => Some ONLINE
        | Some UNDEF => Some UNDEF
        | None => None
        end) ∧
  getEndpointsCount (resetOfflineStatuses r) = getEndpointsCount r ∧
  ∃ r', markHostOffline id r = Some r' ∧
        statusOf (resetOfflineStatuses r') id = Some UNDEF.
Proof.
  intros Hid. split; [|split].
  - intros j. rewrite statusOf_reset. by destruct (statusOf r j) as [[]|].
  - apply getEndpointsCount_reset.
  - destruct (markHost_Some OFFLINE id r Hid) as [r' Hr']. exists r'. split; [done|].
    rewrite statusOf_reset, (statusOf_markHost _ _ _ _ _ Hr'), decide_True by done.
    done.
Qed.

Lemma resetOfflineStatuses_spec_witness :
  let r := IBalancerWithEndpointStatuses ["a"; "secure://b"] in
  ∃ r', markHostOffline 1 r = Some r' ∧
        statusOf (resetOfflineStatuses r') 1 = Some UNDEF.
Proof.
  intros r. apply (resetOfflineStatuses_spec r 1). vm_compute. reflexivity.
Defined.

(** *** The constructor of the base class *)

Lemma registerHosts_spec hosts i r :
  i = getEndpointsCount r → ids_dense r →
  ids_dense (registerHosts hosts i r) ∧
  length (endpoints (registerHosts hosts i r)) = (length (endpoints r) + length hosts)%nat.
Proof.
  revert i r. induction hosts as [|raw hosts IH]; intros i r Hi Hr; simpl.
  - split; [done|lia].
  - destruct (parseForSocketAddress raw) as [address secure]. simpl.
    edestruct IH as [Hdense Hlen]; [| |split; [exact Hdense|]].
    + unfold getEndpointsCount in *. simpl. rewrite length_app. simpl. lia.
    + intros j e. simpl. intros [He|[Hle He]]%lookup_app_Some.
      * by apply Hr.
      * destruct (j - length (endpoints r))%nat eqn:Hj; [|done].
        simplify_eq/=. unfold getEndpointsCount. lia.
    + rewrite Hlen. simpl. rewrite length_app. simpl. lia.
Qed.

Lemma IBalancerWithEndpointStatuses_dense hosts :
  ids_dense (IBalancerWithEndpointStatuses hosts).
Proof. by apply registerHosts_spec. Qed.

Lemma IBalancerWithEndpointStatuses_count hosts :
  getEndpointsCount (IBalancerWithEndpointStatuses hosts) = N.of_nat (length hosts).
Proof.
  unfold getEndpointsCount, IBalancerWithEndpointStatuses.
  by destruct (registerHosts_spec hosts 0 emptyRegistry) as [_ ->].
Qed.

(** *** Selecting from a range *)

Lemma findEndpointById_status r id s :
  statusOf r id = Some s →
  ∃ endpoint, findEndpointById id r = Some endpoint ∧ Endpoint.status endpoint = s.
Proof.
  unfold statusOf. destruct (findEndpointById id r) as [e|]; [|done].
  simpl. intros [= <-]. eauto.
Qed.

Lemma statusOf_lt r id s : statusOf r id = Some s → id < getEndpointsCount r.
Proof.
  intros (e & He & _)%findEndpointById_status. unfold findEndpointById in He.
  apply lookup_lt_Some in He. unfold getEndpointsCount. lia.
Qed.

(** An [id] taken from the range of [ONLINE] or of [UNDEF] endpoints turns
    into an [EndpointInfo] of an available endpoint. *)
Lemma asEndpoint_of_range fallback s r id :
  ids_dense r → s ≠ OFFLINE → id ∈ getRangeByStatus s r →
  ∃ info, asEndpoint fallback id r = Some info ∧
          EndpointInfo.id info = id ∧
          use_fallback_session_lifetime (EndpointInfo.settings info) = fallback ∧
          statusOf r id = Some s ∧ available r id.
Proof.
  intros Hr Hs Hid. pose proof (getRangeByStatus_available _ _ _ Hr Hs Hid) as Hav.
  apply elem_of_getRangeByStatus in Hid; [|done].
  destruct (findEndpointById_status _ _ _ Hid) as (e & He & _).
  unfold asEndpoint. rewrite He. simpl. eauto 10.
Qed.

Lemma noEndpointsLeft_spec r :
  getRangeByStatus ONLINE r = [] → getRangeByStatus UNDEF r = [] →
  none_available r ∧
  noEndpointsLeft r =
    Throws (noAvailableEndpoints (getEndpointsCount r)) (resetOfflineStatuses r).
Proof.
  intros Hon Hun. split; [by apply ranges_nil_none_available|].
  unfold noEndpointsLeft, getAvailableEndpointsCount. rewrite Hon, Hun. simpl.
  by rewrite getEndpointsCount_reset.
Qed.

Lemma length_getRangeByStatus s r :
  N.of_nat (length (getRangeByStatus s r)) ≤ getEndpointsCount r.
Proof.
  unfold getRangeByStatus, getEndpointsCount. rewrite length_fmap.
  pose proof (length_filter (λ e, Endpoint.status e = s) (endpoints r)). lia.
Qed.

(** The draw of [getHostFrom] on a range of at most [2^31] ids, as the
    embedding has it: an element of the range, at the index the draw [g]
    stands for. *)
Lemma drawFrom_spec range g :
  range ≠ [] → N.of_nat (length range) ≤ 2 ^ 31 →
  drawFrom range g = range !! N.to_nat (g mod N.of_nat (length range)).
Proof.
  intros Hne Hlen. unfold drawFrom. rewrite decide_False by done.
  assert (0 < length range)%nat as Hpos by (destruct range; [done|simpl; lia]).
  set (n := N.of_nat (length range)) in *.
  assert (size_sub n 1 = n - 1) as ->.
  { unfold size_sub. change (1 mod 2 ^ 64) with 1.
    replace (n + 2 ^ 64 - 1) with (n - 1 + 1 * 2 ^ 64) by lia.
    rewrite N.Div0.mod_add. apply N.mod_small. lia. }
  assert (static_cast_int (n - 1) = Z.of_N (n - 1)) as ->.
  { unfold static_cast_int. rewrite N.mod_small by lia.
    rewrite decide_True; [done|]. lia. }
  unfold uniform_int_distribution. rewrite decide_True by lia. simpl.
  f_equal. rewrite Z.add_0_l.
  replace (Z.of_N (n - 1) - 0 + 1)%Z with (Z.of_N n) by lia.
  rewrite <- N2Z.inj_mod. generalize (g mod n). lia.
Qed.

Lemma drawFrom_elem_of range g :
  range ≠ [] → N.of_nat (length range) ≤ 2 ^ 31 →
  ∃ id, drawFrom range g = Some id ∧ id ∈ range.
Proof.
  intros Hne Hlen. rewrite drawFrom_spec by done.
  assert (0 < length range)%nat as Hpos by (destruct range; [done|simpl; lia]).
  destruct (lookup_lt_is_Some_2 range (N.to_nat (g mod N.of_nat (length range))))
    as [id Hid].
  { pose proof (N.mod_upper_bound g (N.of_nat (length range))). lia. }
  exists id. split; [done|]. by eapply list_elem_of_lookup_2.
Qed.

(** Every id of the range is drawn for some [g]. *)
Lemma drawFrom_any range id :
  N.of_nat (length range) ≤ 2 ^ 31 → id ∈ range → ∃ g, drawFrom range g = Some id.
Proof.
  intros Hlen Hid. pose proof Hid as [i Hi]%list_elem_of_lookup. exists (N.of_nat i).
  rewrite drawFrom_spec; [|by destruct range|done].
  apply lookup_lt_Some in Hi as Hlt. rewrite N.mod_small by lia. by rewrite Nat2N.id.
Qed.

(** ** What a selection does, policy by policy *)

Lemma Random_getHostToConnect_spec g b :
  ids_dense (Random.registry b) →
  getEndpointsCount (Random.registry b) ≤ 2 ^ 31 →
  selected Random.registry b (Random.getHostToConnect g b) ∧
  ∀ info b', Random.getHostToConnect g b = Returns info b' → b' = b.
Proof.
  intros Hr Hn. unfold Random.getHostToConnect, Random.getHostFrom.
  assert (∀ s, s ≠ OFFLINE → getRangeByStatus s (Random.registry b) ≠ [] →
    ∃ info, (drawFrom (getRangeByStatus s (Random.registry b)) g ≫=
               λ id, asOptimalEndpoint id (Random.registry b)) = Some info ∧
            available (Random.registry b) (EndpointInfo.id info)) as Hdraw.
  { intros s Hs Hne.
    destruct (drawFrom_elem_of _ g Hne) as (id & -> & Hid).
    { pose proof (length_getRangeByStatus s (Random.registry b)). lia. }
    destruct (asEndpoint_of_range false _ _ _ Hr Hs Hid) as (info & ? & <- & _ & _ & ?).
    simpl. eauto. }
  case_decide as Hon.
  { destruct (Hdraw ONLINE) as (info & -> & ?); [done..|]. simpl.
    split; [done|]. by intros ?? [= _ <-]. }
  case_decide as Hun.
  { destruct (Hdraw UNDEF) as (info & -> & ?); [done..|]. simpl.
    split; [done|]. by intros ?? [= _ <-]. }
  destruct (noEndpointsLeft_spec _ Hon Hun) as [Hnone ->]. simpl. done.
Qed.

Lemma selectEndpoint_spec id b endpoint :
  findEndpointById id (RoundRobin.registry b) = Some endpoint →
  ∃ info,
    RoundRobin.selectEndpoint id b =
      Returns info
        (RoundRobin.mk (RoundRobin.registry b)
           (size_add id 1 mod getEndpointsCount (RoundRobin.registry b))) ∧
    EndpointInfo.id info = id ∧
    use_fallback_session_lifetime (EndpointInfo.settings info) = false.
Proof.
  intros He. unfold RoundRobin.selectEndpoint.
  assert (getEndpointsCount (RoundRobin.registry b) ≠ 0) as Hn.
  { unfold findEndpointById in He. apply lookup_lt_Some in He.
    unfold getEndpointsCount. lia. }
  rewrite decide_False by done. simpl.
  unfold asOptimalEndpoint, asEndpoint. rewrite He. simpl. eauto.
Qed.

Lemma RoundRobin_getHostToConnect_spec b :
  ids_dense (RoundRobin.registry b) →
  RoundRobin.round_robin_id b < getEndpointsCount (RoundRobin.registry b) →
  selected RoundRobin.registry b (RoundRobin.getHostToConnect b) ∧
  (∀ info b', RoundRobin.getHostToConnect b = Returns info b' →
     RoundRobin.round_robin_id b' < getEndpointsCount (RoundRobin.registry b) ∧
     use_fallback_session_lifetime (EndpointInfo.settings info) = false) ∧
  (∀ e b', RoundRobin.getHostToConnect b = Throws e b' →
     RoundRobin.round_robin_id b' = RoundRobin.round_robin_id b).
Proof.
  intros Hr Hcur. unfold RoundRobin.getHostToConnect.
  set (r := RoundRobin.registry b) in *.
  assert (0 < getEndpointsCount r) as Hpos by lia.
  destruct (findEndpointById (RoundRobin.round_robin_id b) r) as [endpoint|] eqn:He; last first.
  { unfold findEndpointById in He. apply lookup_ge_None in He.
    unfold getEndpointsCount in Hcur. lia. }
  assert (statusOf r (RoundRobin.round_robin_id b) = Some (Endpoint.status endpoint)) as Hst.
  { unfold statusOf. by rewrite He. }
  assert (∀ s id, s ≠ OFFLINE → getRangeByStatus s r !! 0%nat = Some id →
    ∃ info b', RoundRobin.selectEndpoint id b = Returns info b' ∧
      available r (EndpointInfo.id info) ∧ RoundRobin.registry b' = r ∧
      RoundRobin.round_robin_id b' < getEndpointsCount r ∧
      use_fallback_session_lifetime (EndpointInfo.settings info) = false) as Hsel.
  { intros s id Hs Hid. apply list_elem_of_lookup_2 in Hid.
    destruct (asEndpoint_of_range false _ _ _ Hr Hs Hid) as (_ & _ & _ & _ & Hid' & Hav).
    destruct (findEndpointById_status _ _ _ Hid') as (e & Hfind & _).
    destruct (selectEndpoint_spec _ _ _ Hfind) as (info & -> & <- & ?).
    eexists _, _. split; [done|]. simpl. split_and!; [done..| |done].
    apply N.mod_upper_bound. fold r. lia. }
  case_decide as Hon.
  { destruct (selectEndpoint_spec _ _ _ He) as (info & -> & Hid & ?). simpl.
    fold r. rewrite Hid. split_and!.
    - left. by rewrite Hst, Hon.
    - done.
    - intros ?? [= <- <-]. simpl. split; [|done]. apply N.mod_upper_bound. lia.
    - done. }
  case_decide as Hrange.
  { destruct (getRangeByStatus ONLINE r !! 0%nat) as [id|] eqn:Hid; last first.
    { by destruct (getRangeByStatus ONLINE r). }
    destruct (Hsel ONLINE id) as (info & b' & -> & ? & ? & ? & ?); [done..|].
    simpl. split_and!; [done..| |done]. by intros ?? [= <- <-]. }
  case_decide as Hundef.
  { unfold asOptimalEndpoint, asEndpoint. rewrite He. simpl. split_and!.
    - right. simpl. fold r. by rewrite Hst, Hundef.
    - done.
    - by intros ?? [= <- <-].
    - done. }
  case_decide as Hrange'.
  { destruct (getRangeByStatus UNDEF r !! 0%nat) as [id|] eqn:Hid; last first.
    { by destruct (getRangeByStatus UNDEF r). }
    destruct (Hsel UNDEF id) as (info & b' & -> & ? & ? & ? & ?); [done..|].
    simpl. split_and!; [done..| |done]. by intros ?? [= <- <-]. }
  destruct (noEndpointsLeft_spec _ Hrange Hrange') as [Hnone ->]. simpl.
  split_and!; [done..| |]; [done|]. by intros ?? [= _ <-].
Qed.

Lemma FirstOrRandom_getHostToConnect_spec g b :
  ids_dense (FirstOrRandom.registry b) →
  0 < getEndpointsCount (FirstOrRandom.registry b) ≤ 2 ^ 31 →
  selected FirstOrRandom.registry b (FirstOrRandom.getHostToConnect g b) ∧
  ∀ info b', FirstOrRandom.getHostToConnect g b = Returns info b' → b' = b.
Proof.
  intros Hr [Hpos Hn]. unfold FirstOrRandom.getHostToConnect, FirstOrRandom.getHostFrom.
  set (r := FirstOrRandom.registry b) in *.
  destruct (findEndpointById 0 r) as [endpoint|] eqn:He; last first.
  { unfold findEndpointById in He. apply lookup_ge_None in He.
    unfold getEndpointsCount in Hpos. lia. }
  assert (statusOf r 0 = Some (Endpoint.status endpoint)) as Hst.
  { unfold statusOf. by rewrite He. }
  assert (∀ s, s ≠ OFFLINE → getRangeByStatus s r ≠ [] →
    ∃ info, (drawFrom (getRangeByStatus s r) g ≫=
               λ id, asTemporaryEndpoint id r) = Some info ∧
            available r (EndpointInfo.id info)) as Hdraw.
  { intros s Hs Hne.
    destruct (drawFrom_elem_of _ g Hne) as (id & -> & Hid).
    { pose proof (length_getRangeByStatus s r). lia. }
    destruct (asEndpoint_of_range true _ _ _ Hr Hs Hid) as (info & ? & <- & _ & _ & ?).
    simpl. eauto. }
  assert (∀ s, s ≠ OFFLINE → Endpoint.status endpoint = s →
    ∃ info, asOptimalEndpoint 0 r = Some info ∧ available r (EndpointInfo.id info)) as Hfirst.
  { intros s Hs Heq. unfold asOptimalEndpoint, asEndpoint. rewrite He. simpl.
    eexists. split; [done|]. simpl. unfold available. rewrite Hst, Heq.
    destruct s; naive_solver. }
  case_decide as Hon.
  { destruct (Hfirst ONLINE) as (info & -> & ?); [done..|]. simpl.
    split; [done|]. by intros ?? [= _ <-]. }
  case_decide as Hrange.
  { destruct (Hdraw ONLINE) as (info & -> & ?); [done..|]. simpl.
    split; [done|]. by intros ?? [= _ <-]. }
  case_decide as Hundef.
  { destruct (Hfirst UNDEF) as (info & -> & ?); [done..|]. simpl.
    split; [done|]. by intros ?? [= _ <-]. }
  case_decide as Hrange'.
  { destruct (Hdraw UNDEF) as (info & -> & ?); [done..|]. simpl.
    split; [done|]. by intros ?? [= _ <-]. }
  destruct (noEndpointsLeft_spec _ Hrange Hrange') as [Hnone ->]. simpl. done.
Qed.

(** *** The priority-ordered policy *)

Lemma getMostPriority_loop_spec ps ids mp mi :
  Forall (λ id, is_Some (ps !! N.to_nat id)) ids →
  ∃ mp' mi',
    IBalancerWithPriorities.getMostPriority_loop ps ids mp mi = Some (mp', mi') ∧
    ((mp' = mp ∧ mi' = mi ∧
      Forall (λ id, ∀ p, ps !! N.to_nat id = Some p → mp ≤ p) ids) ∨
     (mp' < mp ∧ ps !! N.to_nat mi' = Some mp' ∧
      ∃ l1 l2, ids = l1 ++ mi' :: l2 ∧
        Forall (λ id, ∀ p, ps !! N.to_nat id = Some p → mp' < p) l1 ∧
        Forall (λ id, ∀ p, ps !! N.to_nat id = Some p → mp' ≤ p) l2)).
Proof.
  revert mp mi. induction ids as [|id ids IH]; intros mp mi Hids.
  { eexists _, _. split; [done|]. left. by repeat constructor. }
  apply Forall_cons_1 in Hids as [[p Hp] Hids].
  cbn [IBalancerWithPriorities.getMostPriority_loop]. rewrite Hp. simpl.
  case_decide as Hlt.
  - destruct (IH p id Hids) as (mp' & mi' & -> & Hcase).
    eexists _, _. split; [done|]. right.
    destruct Hcase as [(-> & -> & Hall)|(Hlt' & Hmi & l1 & l2 & -> & Hl1 & Hl2)].
    + split_and!; [done..|]. exists [], ids. split_and!; [done|constructor|done].
    + split_and!; [lia|done|]. exists (id :: l1), l2. split_and!; [done| |done].
      constructor; [|done]. intros q Hq. simplify_eq. done.
  - destruct (IH mp mi Hids) as (mp' & mi' & -> & Hcase).
    eexists _, _. split; [done|].
    destruct Hcase as [(-> & -> & Hall)|(Hlt' & Hmi & l1 & l2 & -> & Hl1 & Hl2)].
    + left. split_and!; [done..|]. constructor; [|done].
      intros q Hq. simplify_eq. lia.
    + right. split_and!; [done..|]. exists (id :: l1), l2. split_and!; [done| |done].
      constructor; [|done]. intros q Hq. simplify_eq. lia.
Qed.

(** From here to the end of the section: a balancer with one priority per
    endpoint. *)
Section priority_ordered.
Context (b : IBalancerWithPriorities.t) (Hwf : priorities_wf b).

Lemma priorityOf_is_Some id s :
  statusOf (IBalancerWithPriorities.registry b) id = Some s → is_Some (priorityOf b id).
Proof.
  destruct Hwf as [_ Hlen]. intros Hid%statusOf_lt. unfold priorityOf.
  apply lookup_lt_is_Some_2. unfold getEndpointsCount in Hid. lia.
Qed.

(** [getMostPriority]: nothing when no endpoint of the status has a
    priority below [SIZE_MAX], and otherwise the endpoint of the status with
    the lowest priority value and, among those, the lowest id. *)
Lemma getMostPriority_spec s :
  (IBalancerWithPriorities.getMostPriority s b = Some None ∧
   ∀ j q, statusOf (IBalancerWithPriorities.registry b) j = Some s →
          priorityOf b j = Some q → SIZE_MAX ≤ q) ∨
  (∃ id, IBalancerWithPriorities.getMostPriority s b = Some (Some id) ∧
         most_priority b s id).
Proof.
  pose proof Hwf as [Hr Hlen].
  unfold IBalancerWithPriorities.getMostPriority.
  set (r := IBalancerWithPriorities.registry b) in *.
  destruct (getMostPriority_loop_spec (IBalancerWithPriorities.priorities b)
              (getRangeByStatus s r) SIZE_MAX (getEndpointsCount r))
    as (mp' & mi' & -> & Hcase).
  { apply Forall_forall. intros id Hid.
    apply (proj1 (elem_of_getRangeByStatus s r id Hr)) in Hid.
    by eapply priorityOf_is_Some. }
  simpl. destruct Hcase as [(-> & -> & Hall)|(Hlt & Hmi & l1 & l2 & Hrange & Hl1 & Hl2)].
  - left. rewrite decide_True by done. split; [done|].
    intros j q Hj Hq. apply (proj2 (elem_of_getRangeByStatus s r j Hr)) in Hj.
    rewrite Forall_forall in Hall. by eapply Hall.
  - right. exists mi'.
    assert (mi' ∈ getRangeByStatus s r) as Hin.
    { rewrite Hrange. apply elem_of_app. right. apply list_elem_of_here. }
    pose proof Hin as Hst. apply elem_of_getRangeByStatus in Hst; [|done].
    rewrite decide_False.
    2:{ apply statusOf_lt in Hst. lia. }
    split; [done|]. split; [done|]. exists mp'. split; [done|].
    intros j q Hj Hq. apply (proj2 (elem_of_getRangeByStatus s r j Hr)) in Hj.
    pose proof (getRangeByStatus_sorted s r Hr) as Hsorted.
    rewrite Hrange in Hj, Hsorted.
    apply elem_of_app in Hj as [Hj|Hj].
    + left. rewrite Forall_forall in Hl1. by eapply Hl1.
    + apply elem_of_cons in Hj as [->|Hj].
      * right. unfold priorityOf in Hq. split; [congruence|lia].
      * apply StronglySorted_app_1_r, StronglySorted_inv in Hsorted as [_ Hgt].
        rewrite Forall_forall in Hgt, Hl2. specialize (Hgt _ Hj).
        specialize (Hl2 _ Hj _ Hq). lia.
Qed.

(** [isOptimalEndpoint] compares with the first priority:
    [std::min] of the two iterators is [begin()]. *)
Lemma isOptimalEndpoint_spec id p :
  priorityOf b id = Some p →
  ∃ p0, priorityOf b 0 = Some p0 ∧
        IBalancerWithPriorities.isOptimalEndpoint id b = Some (bool_decide (p = p0)).
Proof.
  unfold priorityOf, IBalancerWithPriorities.isOptimalEndpoint. intros Hp.
  rewrite Hp. simpl. unfold IBalancerWithPriorities.std_min.
  rewrite decide_False by lia.
  destruct (lookup_lt_is_Some_2 (IBalancerWithPriorities.priorities b) 0%nat) as [p0 Hp0].
  { apply lookup_lt_Some in Hp. lia. }
  exists p0. change (N.to_nat 0) with 0%nat. rewrite Hp0. done.
Qed.

Lemma getHostWithSetting_spec id s :
  statusOf (IBalancerWithPriorities.registry b) id = Some s →
  ∃ info p p0,
    IBalancerWithPriorities.getHostWithSetting id b = Some info ∧
    EndpointInfo.id info = id ∧
    priorityOf b id = Some p ∧ priorityOf b 0 = Some p0 ∧
    use_fallback_session_lifetime (EndpointInfo.settings info) = negb (bool_decide (p = p0)).
Proof.
  intros Hid. destruct (priorityOf_is_Some _ _ Hid) as [p Hp].
  destruct (isOptimalEndpoint_spec _ _ Hp) as (p0 & Hp0 & Hopt).
  destruct (findEndpointById_status _ _ _ Hid) as (e & He & _).
  unfold IBalancerWithPriorities.getHostWithSetting. rewrite Hopt. simpl.
  unfold asOptimalEndpoint, asTemporaryEndpoint, asEndpoint. rewrite He. simpl.
  destruct (bool_decide (p = p0)) eqn:Hb; simpl; eexists _, p, p0; rewrite Hb;
    split_and!; done.
Qed.

Lemma getMostPriority_None s :
  priorities_below_max b →
  IBalancerWithPriorities.getMostPriority s b = Some None →
  getRangeByStatus s (IBalancerWithPriorities.registry b) = [].
Proof.
  intros Hmax Hnone. pose proof Hwf as [Hr _].
  destruct (getMostPriority_spec s) as [[_ Hall]|(id & Hsome & _)]; [|congruence].
  destruct (getRangeByStatus s (IBalancerWithPriorities.registry b)) as [|id range] eqn:Hrange;
    [done|].
  assert (statusOf (IBalancerWithPriorities.registry b) id = Some s) as Hid.
  { apply elem_of_getRangeByStatus; [done|]. rewrite Hrange. apply list_elem_of_here. }
  destruct (priorityOf_is_Some _ _ Hid) as [q Hq].
  specialize (Hall _ _ Hid Hq). unfold priorities_below_max in Hmax.
  rewrite Forall_forall in Hmax. unfold priorityOf in Hq.
  apply list_elem_of_lookup_2, Hmax in Hq. lia.
Qed.

Lemma Priorities_getHostToConnect_spec :
  priorities_below_max b →
  selected IBalancerWithPriorities.registry b (IBalancerWithPriorities.getHostToConnect b) ∧
  (∀ info b', IBalancerWithPriorities.getHostToConnect b = Returns info b' →
     b' = b ∧
     IBalancerWithPriorities.getHostWithSetting (EndpointInfo.id info) b = Some info ∧
     (most_priority b ONLINE (EndpointInfo.id info) ∨
      getRangeByStatus ONLINE (IBalancerWithPriorities.registry b) = [] ∧
      most_priority b UNDEF (EndpointInfo.id info))) ∧
  (∀ e b', IBalancerWithPriorities.getHostToConnect b = Throws e b' →
     IBalancerWithPriorities.priorities b' = IBalancerWithPriorities.priorities b).
Proof.
  intros Hmax. unfold IBalancerWithPriorities.getHostToConnect.
  assert (∀ s id, s ≠ OFFLINE → most_priority b s id →
    ∃ info, IBalancerWithPriorities.getHostWithSetting id b = Some info ∧
            EndpointInfo.id info = id ∧
            available (IBalancerWithPriorities.registry b) id) as Hpick.
  { intros s id Hs [Hid _].
    destruct (getHostWithSetting_spec _ _ Hid) as (info & _ & _ & -> & <- & _).
    eexists. split_and!; [done..|]. unfold available. destruct s; naive_solver. }
  destruct (getMostPriority_spec ONLINE) as [[Hon _]|(id & -> & Hid)].
  2:{ destruct (Hpick ONLINE id) as (info & Hinfo & <- & ?); [done..|].
      rewrite Hinfo. simpl. split_and!; [done..| |done].
      intros ?? [= <- <-]. eauto. }
  rewrite Hon. apply getMostPriority_None in Hon; [|done..].
  destruct (getMostPriority_spec UNDEF) as [[Hun _]|(id & -> & Hid)].
  2:{ destruct (Hpick UNDEF id) as (info & Hinfo & <- & ?); [done..|].
      rewrite Hinfo. simpl. split_and!; [done..| |done].
      intros ?? [= <- <-]. eauto. }
  rewrite Hun. apply getMostPriority_None in Hun; [|done..].
  destruct (noEndpointsLeft_spec _ Hon Hun) as [Hnone ->]. simpl.
  split_and!; [done..| |]; [done|]. by intros ?? [= _ <-].
Qed.

End priority_ordered.

(** ** The balancer behind the interface *)

Lemma registryOf_withRegistry r b : registryOf (withRegistry r b) = r.
Proof. by destruct b. Qed.

Lemma wf_withRegistry r b :
  wf b → ids_dense r → getEndpointsCount r = getEndpointsCount (registryOf b) →
  wf (withRegistry r b).
Proof.
  intros [Hdense Hb] Hr Hcount. split; [by rewrite registryOf_withRegistry|].
  destruct b as [b|b|b|b]; simpl in *; try (rewrite Hcount; exact Hb).
  destruct Hb as [[_ Hlen] Hmax]. split; [|done]. split; [done|]. simpl.
  unfold getEndpointsCount in Hcount. lia.
Qed.

Lemma Balancer_getHostToConnect_spec g b :
  wf b →
  selected registryOf b (Balancer.getHostToConnect g b) ∧
  (∀ info b', Balancer.getHostToConnect g b = Returns info b' →
     wf b' ∧ same_but_cursor b b') ∧
  (∀ e b', Balancer.getHostToConnect g b = Throws e b' →
     b' = Balancer.resetOfflineStatuses b).
Proof.
  intros [Hdense Hb]. destruct b as [b|b|b|b]; simpl in *.
  - destruct (Random_getHostToConnect_spec g b Hdense Hb) as [Hsel Hret].
    destruct (Random.getHostToConnect g b) as [info b'|e b'|]; simpl in *; [| |done].
    + split; [done|split; [|done]]. intros ?? [= <- <-].
      rewrite (Hret _ _ eq_refl). split; [|done]. unfold wf. simpl. eauto.
    + split; [done|split; [done|]]. intros ?? [= <- <-]. destruct Hsel as (_ & _ & Hr).
      unfold Balancer.resetOfflineStatuses. simpl. destruct b'. simpl in Hr. by subst.
  - destruct Hb as [Hwf Hmax].
    destruct (Priorities_getHostToConnect_spec b Hwf Hmax) as (Hsel & Hret & Hthrow).
    destruct (IBalancerWithPriorities.getHostToConnect b) as [info b'|e b'|];
      simpl in *; [| |done].
    + split; [done|split; [|done]]. intros ?? [= <- <-].
      destruct (Hret _ _ eq_refl) as [-> _]. split; [|done]. unfold wf. simpl. eauto.
    + split; [done|split; [done|]]. intros ?? [= <- <-]. destruct Hsel as (_ & _ & Hr).
      specialize (Hthrow _ _ eq_refl).
      unfold Balancer.resetOfflineStatuses. simpl. destruct b'. simpl in *. by subst.
  - destruct (RoundRobin_getHostToConnect_spec b Hdense Hb) as (Hsel & Hret & Hthrow).
    destruct (RoundRobin.getHostToConnect b) as [info b'|e b'|]; simpl in *; [| |done].
    + split; [done|split; [|done]]. intros ?? [= <- <-].
      destruct (Hret _ _ eq_refl) as [Hcur _]. destruct Hsel as [_ Hr].
      split; [|done]. split; simpl; by rewrite Hr.
    + split; [done|split; [done|]]. intros ?? [= <- <-]. destruct Hsel as (_ & _ & Hr).
      specialize (Hthrow _ _ eq_refl).
      unfold Balancer.resetOfflineStatuses. simpl. destruct b'. simpl in *. by subst.
  - destruct (FirstOrRandom_getHostToConnect_spec g b Hdense Hb) as [Hsel Hret].
    destruct (FirstOrRandom.getHostToConnect g b) as [info b'|e b'|]; simpl in *; [| |done].
    + split; [done|split; [|done]]. intros ?? [= <- <-].
      rewrite (Hret _ _ eq_refl). split; [|done]. unfold wf. simpl. eauto.
    + split; [done|split; [done|]]. intros ?? [= <- <-]. destruct Hsel as (_ & _ & Hr).
      unfold Balancer.resetOfflineStatuses. simpl. destruct b'. simpl in Hr. by subst.
Qed.

Lemma wf_resetOfflineStatuses b : wf b → wf (Balancer.resetOfflineStatuses b).
Proof.
  intros Hb. apply wf_withRegistry; [done| |apply getEndpointsCount_reset].
  apply ids_dense_reset, Hb.
Qed.

Lemma wf_markHost s id b r :
  wf b → markHost s id (registryOf b) = Some r → wf (withRegistry r b).
Proof.
  intros Hb Hr. apply wf_withRegistry; [done| |by eapply getEndpointsCount_markHost].
  eapply ids_dense_markHost; [done|apply Hb].
Qed.

Lemma same_but_cursor_count b b' :
  same_but_cursor b b' → getEndpointsCount (registryOf b') = getEndpointsCount (registryOf b).
Proof.
  destruct b, b'; simpl; intros Hsame; congruence.
Qed.

Lemma applyUpdate_wf u b b' :
  wf b → applyUpdate u b = Some b' →
  wf b' ∧ Balancer.getEndpointsCount b' = Balancer.getEndpointsCount b.
Proof.
  intros Hb. unfold Balancer.getEndpointsCount.
  destruct u as [id|id| |g]; simpl.
  - unfold Balancer.markHostOnline, markHostOnline.
    destruct (markHost ONLINE id (registryOf b)) as [r|] eqn:Hr; [|done].
    simpl. intros [= <-]. split; [by eapply wf_markHost|].
    rewrite registryOf_withRegistry. by eapply getEndpointsCount_markHost.
  - unfold Balancer.markHostOffline, markHostOffline.
    destruct (markHost OFFLINE id (registryOf b)) as [r|] eqn:Hr; [|done].
    simpl. intros [= <-]. split; [by eapply wf_markHost|].
    rewrite registryOf_withRegistry. by eapply getEndpointsCount_markHost.
  - intros [= <-]. split; [by apply wf_resetOfflineStatuses|].
    unfold Balancer.resetOfflineStatuses. rewrite registryOf_withRegistry.
    apply getEndpointsCount_reset.
  - destruct (Balancer_getHostToConnect_spec g b Hb) as (_ & Hret & Hthrow).
    destruct (Balancer.getHostToConnect g b) as [info b1|e b1|]; [| |done].
    + intros [= <-]. destruct (Hret _ _ eq_refl) as [? ?].
      split; [done|]. by apply same_but_cursor_count.
    + intros [= <-]. rewrite (Hthrow _ _ eq_refl).
      split; [by apply wf_resetOfflineStatuses|].
      unfold Balancer.resetOfflineStatuses. rewrite registryOf_withRegistry.
      apply getEndpointsCount_reset.
Qed.

Lemma applyUpdates_wf us b b' :
  wf b → applyUpdates us b = Some b' →
  wf b' ∧ Balancer.getEndpointsCount b' = Balancer.getEndpointsCount b.
Proof.
  revert b. induction us as [|u us IH]; intros b Hb; simpl.
  - by intros [= <-].
  - destruct (applyUpdate u b) as [b1|] eqn:Hu; [|done]. simpl. intros Hus.
    destruct (applyUpdate_wf _ _ _ Hb Hu) as [Hb1 Hcount].
    destruct (IH _ Hb1 Hus) as [? ?]. split; [done|congruence].
Qed.

(** *** The constructors *)

Lemma Priorities_new_wf hosts priority_calculator :
  priorities_wf (IBalancerWithPriorities.new hosts priority_calculator).
Proof.
  split; simpl; [apply IBalancerWithEndpointStatuses_dense|apply length_fmap].
Qed.

Lemma Priorities_new_below_max hosts priority_calculator :
  (∀ endpoint, endpoint ∈ endpoints (IBalancerWithEndpointStatuses hosts) →
               priority_calculator endpoint < SIZE_MAX) →
  priorities_below_max (IBalancerWithPriorities.new hosts priority_calculator).
Proof.
  intros Hcalc. unfold priorities_below_max. simpl.
  apply Forall_fmap, Forall_forall. intros e He. simpl. by apply Hcalc.
Qed.

Lemma registerHosts_address hosts i r endpoint :
  endpoint ∈ endpoints (registerHosts hosts i r) →
  endpoint ∈ endpoints r ∨
  ∃ raw_host, raw_host ∈ hosts ∧
              Endpoint.address endpoint = (parseForSocketAddress raw_host).1.
Proof.
  revert i r. induction hosts as [|raw hosts IH]; intros i r; simpl; [by left|].
  destruct (parseForSocketAddress raw) as [address secure] eqn:Hparse. simpl.
  intros [[He|He%list_elem_of_singleton]%elem_of_app|(raw' & Hraw & He)]%IH.
  - by left.
  - right. exists raw. split; [apply list_elem_of_here|]. subst. by rewrite Hparse.
  - right. exists raw'. split; [by apply list_elem_of_further|done].
Qed.

Lemma wf_getConnectionBalancer metrics load_balancing_type hosts :
  metrics_bounded metrics hosts → hosts ≠ [] → N.of_nat (length hosts) ≤ 2 ^ 31 →
  wf (getConnectionBalancer metrics load_balancing_type hosts).
Proof.
  intros Hm Hne Hlen.
  pose proof (IBalancerWithEndpointStatuses_dense hosts) as Hdense.
  pose proof (IBalancerWithEndpointStatuses_count hosts) as Hcount.
  assert (0 < N.of_nat (length hosts)) as Hpos by (destruct hosts; [done|simpl; lia]).
  destruct load_balancing_type; (split; [exact Hdense|]); simpl.
  - lia.
  - split; [apply Priorities_new_wf|]. apply Priorities_new_below_max.
    intros e [He|(raw & Hraw & Haddr)]%registerHosts_address; [by apply elem_of_nil in He|].
    unfold priorityAsNearestHostname. rewrite Haddr. by apply Hm.
  - split; [apply Priorities_new_wf|]. apply Priorities_new_below_max.
    intros e [He|(raw & Hraw & Haddr)]%registerHosts_address; [by apply elem_of_nil in He|].
    unfold priorityAsLevenshtein. rewrite Haddr. by apply Hm.
  - split; [apply Priorities_new_wf|]. apply Priorities_new_below_max.
    intros e [i Hi]%list_elem_of_lookup. unfold IBalancerWithPriorities.priorityAsInOrer.
    rewrite (Hdense _ _ Hi). apply lookup_lt_Some in Hi.
    unfold getEndpointsCount in Hcount. unfold SIZE_MAX. lia.
  - lia.
  - lia.
Qed.

Lemma init_inv metrics args_ lb0 lb b0 :
  init metrics args_ lb0 = Returns () lb → connection_balancer lb = Some b0 →
  hosts args_ ≠ [] ∧
  b0 = getConnectionBalancer metrics (load_balancing args_) (hosts args_).
Proof.
  unfold init. case_decide; [done|]. intros [= <-]. simpl. by intros [= <-].
Qed.

Lemma getEndpointsCount_getConnectionBalancer metrics load_balancing_type hosts :
  Balancer.getEndpointsCount (getConnectionBalancer metrics load_balancing_type hosts) =
  N.of_nat (length hosts).
Proof.
  unfold Balancer.getEndpointsCount.
  destruct load_balancing_type; apply IBalancerWithEndpointStatuses_count.
Qed.

(** The balancers the program runs on: built by [init] over at most [2^31]
    hosts, then taken through any calls. *)
Lemma reachable_wf metrics args_ lb b0 us b :
  metrics_bounded metrics (hosts args_) →
  N.of_nat (length (hosts args_)) ≤ 2 ^ 31 →
  init metrics args_ newZooKeeperLoadBalancer = Returns () lb →
  connection_balancer lb = Some b0 →
  applyUpdates us b0 = Some b →
  wf b ∧ Balancer.getEndpointsCount b ≤ 2 ^ 31.
Proof.
  intros Hm Hlen Hinit Hb0 Hus.
  destruct (init_inv _ _ _ _ _ Hinit Hb0) as [Hne ->].
  destruct (applyUpdates_wf _ _ _ (wf_getConnectionBalancer _ _ _ Hm Hne Hlen) Hus)
    as [Hwf Hcount].
  split; [done|]. rewrite Hcount, getEndpointsCount_getConnectionBalancer. done.
Qed.

Lemma getAvailableEndpointsCount_zero r :
  getEndpointsCount r ≤ 2 ^ 31 →
  getAvailableEndpointsCount r = 0 ↔ none_available r.
Proof.
  intros Hcount. split; [|apply getAvailableEndpointsCount_none].
  unfold getAvailableEndpointsCount, size_add.
  pose proof (length_getRangeByStatus ONLINE r).
  pose proof (length_getRangeByStatus UNDEF r).
  rewrite N.mod_small by lia. intros Hzero.
  apply ranges_nil_none_available; apply nil_length_inv; lia.
Qed.

(** C1.  On a balancer of any policy, built by [init] and taken through
    any sequence of [markHostOnline], [markHostOffline],
    [resetOfflineStatuses] (and earlier selections), [getHostToConnect]
    either returns an endpoint whose status is [ONLINE] or [UNDEF], and
    then some endpoint is available; or, no endpoint being [ONLINE] or
    [UNDEF] (the available count is zero), it resets the offline statuses,
    so that every endpoint, [OFFLINE] before, is [UNDEF] afterwards, and
    throws [ALL_CONNECTION_TRIES_FAILED].  The hosts are at most [2^31] and
    their two distances from the local host are below [SIZE_MAX]. *)
Theorem getHostToConnect_available_or_fails metrics args_ lb b0 us b g :
  metrics_bounded metrics (hosts args_) →
  N.of_nat (length (hosts args_)) ≤ 2 ^ 31 →
  init metrics args_ newZooKeeperLoadBalancer = Returns () lb →
  connection_balancer lb = Some b0 →
  applyUpdates us b0 = Some b →
  match Balancer.getHostToConnect g b with
  | Returns info b' =>
      available (registryOf b) (EndpointInfo.id info) ∧
      ¬ none_available (registryOf b) ∧
      Balancer.getAvailableEndpointsCount b ≠ 0
  | Throws e b' =>
      none_available (registryOf b) ∧
      Balancer.getAvailableEndpointsCount b = 0 ∧
      e = noAvailableEndpoints (Balancer.getEndpointsCount b) ∧
      b' = Balancer.resetOfflineStatuses b ∧
      Balancer.getEndpointsCount b' = Balancer.getEndpointsCount b ∧
      (∀ id, statusOf (registryOf b) id = Some OFFLINE →
             statusOf (registryOf b') id = Some UNDEF) ∧
      Forall (λ endpoint, Endpoint.status endpoint = UNDEF) (endpoints (registryOf b'))
  | Undefined => False
  end.
Proof.
  intros Hm Hlen Hinit Hb0 Hus.
  destruct (reachable_wf _ _ _ _ _ _ Hm Hlen Hinit Hb0 Hus) as [Hwf Hcount].
  destruct (Balancer_getHostToConnect_spec g b Hwf) as (Hsel & _ & Hthrow).
  pose proof (getAvailableEndpointsCount_zero _ Hcount) as Hzero.
  destruct (Balancer.getHostToConnect g b) as [info b'|e b'|]; simpl in Hsel; [| |done].
  - destruct Hsel as [Hav _]. pose proof (available_not_none _ _ Hav) as Hnot.
    split_and!; [done..|]. unfold Balancer.getAvailableEndpointsCount. by rewrite Hzero.
  - destruct Hsel as (Hnone & -> & Hr).
    split; [done|]. split; [by apply Hzero|]. split; [done|].
    split; [exact (Hthrow _ _ eq_refl)|]. unfold Balancer.getEndpointsCount.
    rewrite Hr. split; [apply getEndpointsCount_reset|]. split.
    + intros id Hid. by rewrite statusOf_reset, Hid.
    + by apply reset_all_undef.
Qed.

(** C10.  On the same balancers: when some endpoint is [ONLINE] or [UNDEF],
    [getHostToConnect] returns and leaves the registry (address, secure
    flag, id and status of every endpoint) as it was, the balancer
    differing at most in the cursor of the round robin; when none is, it
    throws and the balancer is the one [resetOfflineStatuses] gives. *)
Theorem getHostToConnect_frame metrics args_ lb b0 us b g :
  metrics_bounded metrics (hosts args_) →
  N.of_nat (length (hosts args_)) ≤ 2 ^ 31 →
  init metrics args_ newZooKeeperLoadBalancer = Returns () lb →
  connection_balancer lb = Some b0 →
  applyUpdates us b0 = Some b →
  (¬ none_available (registryOf b) →
   ∃ info b', Balancer.getHostToConnect g b = Returns info b' ∧
              registryOf b' = registryOf b ∧ same_but_cursor b b') ∧
  (none_available (registryOf b) →
   ∃ e b', Balancer.getHostToConnect g b = Throws e b' ∧
           b' = Balancer.resetOfflineStatuses b ∧
           registryOf b' = resetOfflineStatuses (registryOf b)).
Proof.
  intros Hm Hlen Hinit Hb0 Hus.
  destruct (reachable_wf _ _ _ _ _ _ Hm Hlen Hinit Hb0 Hus) as [Hwf _].
  destruct (Balancer_getHostToConnect_spec g b Hwf) as (Hsel & Hret & Hthrow).
  destruct (Balancer.getHostToConnect g b) as [info b'|e b'|]; simpl in Hsel; [| |done].
  - destruct Hsel as [Hav Hr]. destruct (Hret _ _ eq_refl) as [_ Hsame]. split.
    + intros _. eauto.
    + intros Hnone. by apply available_not_none in Hav.
  - destruct Hsel as (Hnone & _ & Hr). split; [done|].
    intros _. eexists _, _. split; [done|]. split; [exact (Hthrow _ _ eq_refl)|done].
Qed.

(** *** A concrete run *)

Lemma example_metrics_bounded hosts : metrics_bounded example_metrics hosts.
Proof. intros raw _. simpl. by case_decide. Qed.

Lemma getHostToConnect_available_or_fails_witness :
  ∃ b, applyUpdates [MarkHostOffline 0; MarkHostOffline 2; MarkHostOffline 1]
         (example_balancer FIRST_OR_RANDOM) = Some b ∧
       match Balancer.getHostToConnect 5 b with
       | Returns info b' =>
           available (registryOf b) (EndpointInfo.id info) ∧
           ¬ none_available (registryOf b) ∧
           Balancer.getAvailableEndpointsCount b ≠ 0
       | Throws e b' =>
           none_available (registryOf b) ∧
           Balancer.getAvailableEndpointsCount b = 0 ∧
           e = noAvailableEndpoints (Balancer.getEndpointsCount b) ∧
           b' = Balancer.resetOfflineStatuses b ∧
           Balancer.getEndpointsCount b' = Balancer.getEndpointsCount b ∧
           (∀ id, statusOf (registryOf b) id = Some OFFLINE →
                  statusOf (registryOf b') id = Some UNDEF) ∧
           Forall (λ endpoint, Endpoint.status endpoint = UNDEF)
             (endpoints (registryOf b'))
       | Undefined => False
       end.
Proof.
  eexists. split; [reflexivity|].
  apply (getHostToConnect_available_or_fails example_metrics
           (example_args FIRST_OR_RANDOM) (example_lb FIRST_OR_RANDOM)
           (example_balancer FIRST_OR_RANDOM)
           [MarkHostOffline 0; MarkHostOffline 2; MarkHostOffline 1]).
  - apply example_metrics_bounded.
  - vm_compute. discriminate.
  - reflexivity.
  - reflexivity.
  - reflexivity.
Defined.

Lemma getHostToConnect_frame_witness :
  ∃ b, applyUpdates [MarkHostOffline 0; GetHostToConnect 1; MarkHostOnline 1]
         (example_balancer ROUND_ROBIN) = Some b ∧
       (¬ none_available (registryOf b) →
        ∃ info b', Balancer.getHostToConnect 0 b = Returns info b' ∧
                   registryOf b' = registryOf b ∧ same_but_cursor b b') ∧
       (none_available (registryOf b) →
        ∃ e b', Balancer.getHostToConnect 0 b = Throws e b' ∧
                b' = Balancer.resetOfflineStatuses b ∧
                registryOf b' = resetOfflineStatuses (registryOf b)).
Proof.
  eexists. split; [reflexivity|].
  apply (getHostToConnect_frame example_metrics
           (example_args ROUND_ROBIN) (example_lb ROUND_ROBIN)
           (example_balancer ROUND_ROBIN)
           [MarkHostOffline 0; GetHostToConnect 1; MarkHostOnline 1]).
  - apply example_metrics_bounded.
  - vm_compute. discriminate.
  - reflexivity.
  - reflexivity.
  - reflexivity.
Defined.

(** ** The priority-ordered balancer after any calls *)

Lemma Priorities_reachable hosts priority_calculator us b :
  priorities_below_max (IBalancerWithPriorities.new hosts priority_calculator) →
  applyUpdates us (PrioritiesBalancer (IBalancerWithPriorities.new hosts priority_calculator))
    = Some (PrioritiesBalancer b) →
  priorities_wf b ∧ priorities_below_max b.
Proof.
  intros Hmax Hus.
  eapply applyUpdates_wf in Hus as [[_ Hwf] _]; [done|].
  split; [apply IBalancerWithEndpointStatuses_dense|]. simpl.
  split; [apply Priorities_new_wf|done].
Qed.

Lemma statusOf_available r id s : statusOf r id = Some s → s ≠ OFFLINE → available r id.
Proof. unfold available. destruct s; naive_solver. Qed.

(** C6.  On a priority-ordered balancer, built with priorities below
    [SIZE_MAX], after any calls: when some endpoint is [ONLINE], [getHostToConnect] returns
    the [ONLINE] endpoint of minimum priority value and, among those of
    that value, of lowest id; when none is [ONLINE] and some endpoint is
    [UNDEF], the same among the [UNDEF] endpoints; hence it never returns
    an [ONLINE] endpoint [c] when an [ONLINE] endpoint [a] has a lower
    priority value. *)
Theorem getHostToConnect_most_priority hosts priority_calculator us b :
  priorities_below_max (IBalancerWithPriorities.new hosts priority_calculator) →
  applyUpdates us (PrioritiesBalancer (IBalancerWithPriorities.new hosts priority_calculator))
    = Some (PrioritiesBalancer b) →
  let r := IBalancerWithPriorities.registry b in
  ((∃ a, statusOf r a = Some ONLINE) →
   ∃ info, IBalancerWithPriorities.getHostToConnect b = Returns info b ∧
           most_priority b ONLINE (EndpointInfo.id info)) ∧
  ((∀ a, statusOf r a ≠ Some ONLINE) → (∃ a, statusOf r a = Some UNDEF) →
   ∃ info, IBalancerWithPriorities.getHostToConnect b = Returns info b ∧
           most_priority b UNDEF (EndpointInfo.id info)) ∧
  (∀ a c pa pc info b',
     statusOf r a = Some ONLINE → statusOf r c = Some ONLINE →
     priorityOf b a = Some pa → priorityOf b c = Some pc → pa < pc →
     IBalancerWithPriorities.getHostToConnect b = Returns info b' →
     EndpointInfo.id info ≠ c).
Proof.
  intros Hcalc Hus r.
  destruct (Priorities_reachable _ _ _ _ Hcalc Hus) as [Hwf Hmax].
  pose proof Hwf as [Hdense _].
  destruct (Priorities_getHostToConnect_spec b Hwf Hmax) as (Hsel & Hret & _).
  assert (∀ a s, statusOf r a = Some s → s ≠ OFFLINE →
    ∃ info, IBalancerWithPriorities.getHostToConnect b = Returns info b ∧
      (most_priority b ONLINE (EndpointInfo.id info) ∨
       getRangeByStatus ONLINE r = [] ∧ most_priority b UNDEF (EndpointInfo.id info)))
    as Hreturns.
  { intros a s Ha Hs.
    destruct (IBalancerWithPriorities.getHostToConnect b) as [info b'|e b'|];
      simpl in Hsel; [| |done].
    - destruct (Hret _ _ eq_refl) as (-> & _ & Hmost). eauto.
    - destruct Hsel as [Hnone _].
      by apply (available_not_none r a (statusOf_available _ _ _ Ha Hs)) in Hnone. }
  split_and!.
  - intros [a Ha]. destruct (Hreturns a ONLINE Ha) as (info & Hinfo & Hmost); [done|].
    exists info. split; [done|]. destruct Hmost as [?|[Hnil _]]; [done|].
    apply (proj2 (elem_of_getRangeByStatus ONLINE r a Hdense)) in Ha.
    rewrite Hnil in Ha. by apply elem_of_nil in Ha.
  - intros Hnone [a Ha]. destruct (Hreturns a UNDEF Ha) as (info & Hinfo & Hmost); [done|].
    exists info. split; [done|]. destruct Hmost as [[Hon _]|[_ ?]]; [|done].
    by apply Hnone in Hon.
  - intros a c pa pc info b' Ha Hc Hpa Hpc Hlt Hinfo Heq. subst c.
    destruct (Hreturns a ONLINE Ha) as (info' & Hinfo' & Hmost); [done|].
    rewrite Hinfo in Hinfo'. injection Hinfo' as <- _.
    destruct Hmost as [(_ & p & Hp & Hmin)|[Hnil _]].
    + destruct (Hmin a pa Ha Hpa) as [?|[? ?]]; simplify_eq; lia.
    + apply (proj2 (elem_of_getRangeByStatus ONLINE r a Hdense)) in Ha.
      rewrite Hnil in Ha. by apply elem_of_nil in Ha.
Qed.

Lemma getHostToConnect_most_priority_witness :
  ∃ info,
    IBalancerWithPriorities.getHostToConnect example_priorities =
      Returns info example_priorities ∧
    most_priority example_priorities ONLINE (EndpointInfo.id info).
Proof.
  apply (proj1 (getHostToConnect_most_priority
                  ["a"; "b"; "secure://c"] (priorityAsLevenshtein example_metrics)
                  [MarkHostOnline 0; MarkHostOnline 2; MarkHostOffline 1]
                  example_priorities
                  ltac:(by repeat constructor) eq_refl)).
  exists 0. reflexivity.
Defined.

(** ** The first-or-random balancer after any calls *)







(** ** The round robin *)









(** ** Where the code departs from its specification *)

(** On a priority-ordered balancer after any calls the session-lifetime
    hint of the selected endpoint compares its priority with the priority
    of endpoint 0, whatever the other priorities are. *)
Lemma getHostToConnect_optimal_iff_first hosts priority_calculator us b info b' :
  priorities_below_max (IBalancerWithPriorities.new hosts priority_calculator) →
  applyUpdates us (PrioritiesBalancer (IBalancerWithPriorities.new hosts priority_calculator))
    = Some (PrioritiesBalancer b) →
  IBalancerWithPriorities.getHostToConnect b = Returns info b' →
  ∃ p p0, priorityOf b (EndpointInfo.id info) = Some p ∧ priorityOf b 0 = Some p0 ∧
          (use_fallback_session_lifetime (EndpointInfo.settings info) = false ↔ p = p0).
Proof.
  intros Hcalc Hus Hret.
  destruct (Priorities_reachable _ _ _ _ Hcalc Hus) as [Hwf Hmax].
  destruct (Priorities_getHostToConnect_spec b Hwf Hmax) as (Hsel & Hinfo & _).
  destruct (Hinfo _ _ Hret) as (_ & Hsetting & _).
  rewrite Hret in Hsel. destruct Hsel as [Hav _].
  assert (∃ s, statusOf (IBalancerWithPriorities.registry b) (EndpointInfo.id info) = Some s)
    as [s Hs] by (destruct Hav; eauto).
  destruct (getHostWithSetting_spec _ Hwf _ _ Hs)
    as (info' & p & p0 & Heq & _ & Hp & Hp0 & Hflag).
  rewrite Hsetting in Heq. injection Heq as <-.
  exists p, p0. split_and!; [done..|]. rewrite Hflag.
  case_bool_decide; simpl; split; intros; congruence.
Qed.

(** C2 fails on the code.  Hosts [a], [b], [c] seen from the local host
    [b] under the Levenshtein distance have the priorities [1; 0; 1].
    Endpoint 1 is selected and its priority 0 is the minimum over all
    endpoints, yet it is returned with [use_fallback_session_lifetime =
    true]: [isOptimalEndpoint] compares with the priority of endpoint 0. *)
Theorem getHostToConnect_minimum_priority_fallback :
  let b := IBalancerWithPriorities.new ["a"; "b"; "secure://c"]
             (priorityAsLevenshtein example_metrics) in
  IBalancerWithPriorities.priorities b = [1; 0; 1] ∧
  IBalancerWithPriorities.getHostToConnect b =
    Returns {| EndpointInfo.address := "b"; EndpointInfo.secure := false;
               EndpointInfo.id := 1;
               EndpointInfo.settings := {| use_fallback_session_lifetime := true |} |}
            b.
Proof. split; reflexivity. Qed.

(** C3 fails on the code.  On the in-order balancer over three hosts, all
    [UNDEF], with the current endpoint 0 (priority 0, which no endpoint
    outranks), [endpointsWorthChecking] returns all three endpoints: the
    flag [current_id_set] short-circuits the comparison of priorities.
    Without a current endpoint the comparison is made, against a priority
    the vector does not have, and nothing is returned. *)
Theorem endpointsWorthChecking_current_ignored :
  let b := IBalancerWithPriorities.new ["a"; "b"; "secure://c"]
             IBalancerWithPriorities.priorityAsInOrer in
  IBalancerWithPriorities.priorities b = [0; 1; 2] ∧
  (λ infos : list EndpointInfo.t, EndpointInfo.id <$> infos)
    <$> IBalancerWithPriorities.endpointsWorthChecking (Some 0) b
    = Some [0; 1; 2] ∧
  IBalancerWithPriorities.endpointsWorthChecking None b = None.
Proof. repeat split; reflexivity. Qed.

(** Without a current endpoint [endpointsWorthChecking] reads
    [priorities[getEndpointsCount()]] as soon as one endpoint is [UNDEF] or
    [OFFLINE]: one past the end of the vector. *)
Lemma endpointsWorthChecking_no_current b :
  priorities_wf b →
  ¬ (getRangeByStatus UNDEF (IBalancerWithPriorities.registry b) = [] ∧
     getRangeByStatus OFFLINE (IBalancerWithPriorities.registry b) = []) →
  IBalancerWithPriorities.priorities b
    !! N.to_nat (getEndpointsCount (IBalancerWithPriorities.registry b)) = None ∧
  IBalancerWithPriorities.endpointsWorthChecking None b = None.
Proof.
  intros Hwf Hsome. pose proof Hwf as [Hdense Hlen].
  set (r := IBalancerWithPriorities.registry b) in *.
  assert (IBalancerWithPriorities.priorities b !! N.to_nat (getEndpointsCount r) = None)
    as Hend.
  { apply lookup_ge_None. unfold getEndpointsCount. lia. }
  split; [done|].
  assert (∀ s range acc, range = getRangeByStatus s r → range ≠ [] →
    IBalancerWithPriorities.worthChecking_loop b (getEndpointsCount r) false range acc = None)
    as Hloop.
  { intros s [|id range] acc Hrange Hne; [done|]. simpl.
    assert (statusOf r id = Some s) as Hid.
    { apply elem_of_getRangeByStatus; [done|]. rewrite <- Hrange. apply list_elem_of_here. }
    destruct (priorityOf_is_Some _ Hwf _ _ Hid) as [p Hp]. unfold priorityOf in Hp.
    rewrite Hp. simpl. by rewrite Hend. }
  unfold IBalancerWithPriorities.endpointsWorthChecking. fold r. simpl.
  destruct (decide (getRangeByStatus UNDEF r = [])) as [Hundef|Hundef].
  - rewrite Hundef. simpl. apply (Hloop OFFLINE); [done|]. naive_solver.
  - by rewrite (Hloop UNDEF).
Qed.

(** C9 fails on the code.  On the in-order balancer over three hosts the
    call of [endpointsWorthChecking] without a current endpoint reads the
    priority vector at the index 3, which it does not have. *)
Theorem endpointsWorthChecking_reads_past_end :
  let b := IBalancerWithPriorities.new ["a"; "b"; "secure://c"]
             IBalancerWithPriorities.priorityAsInOrer in
  length (IBalancerWithPriorities.priorities b) = 3%nat ∧
  default (getEndpointsCount (IBalancerWithPriorities.registry b)) None = 3 ∧
  IBalancerWithPriorities.priorities b !! N.to_nat 3 = None ∧
  IBalancerWithPriorities.endpointsWorthChecking None b = None.
Proof. repeat split; reflexivity. Qed.

(** *** The connection loop *)

Lemma returning_throws {S A : Type} (s s' : S) (r : option A) e :
  returning s r ≠ Throws e s'.
Proof. by destruct r. Qed.

Lemma withState_throws {S S' A : Type} (f : S → S') (r : Result S A) e s' :
  withState f r = Throws e s' → ∃ s, r = Throws e s.
Proof. destruct r; simpl; intros; simplify_eq; eauto. Qed.

Lemma noEndpointsLeft_throws r e r' :
  noEndpointsLeft r = Throws e r' → ∃ count, e = noAvailableEndpoints count.
Proof. unfold noEndpointsLeft. case_decide; intros; simplify_eq; eauto. Qed.

Lemma selectEndpoint_throws id b e b' : RoundRobin.selectEndpoint id b ≠ Throws e b'.
Proof. unfold RoundRobin.selectEndpoint. case_decide; [done|apply returning_throws]. Qed.

Ltac throws_sentinel :=
  repeat first
    [ progress intros
    | match goal with
      | H : returning _ _ = Throws _ _ |- _ => by apply returning_throws in H
      | H : RoundRobin.selectEndpoint _ _ = Throws _ _ |- _ =>
          by apply selectEndpoint_throws in H
      | H : withState _ _ = Throws _ _ |- _ => apply withState_throws in H as [? H]
      | H : noEndpointsLeft _ = Throws _ _ |- _ => by apply noEndpointsLeft_throws in H
      | H : Undefined = Throws _ _ |- _ => discriminate H
      | H : match ?x with _ => _ end = Throws _ _ |- _ => destruct x eqn:?
      end ].

(** Whatever [getHostToConnect] throws is [ALL_CONNECTION_TRIES_FAILED]. *)
Lemma Balancer_getHostToConnect_throws g b e b' :
  Balancer.getHostToConnect g b = Throws e b' → ∃ count, e = noAvailableEndpoints count.
Proof.
  destruct b as [b|b|b|b]; simpl; intros Hthrow; apply withState_throws in Hthrow as [s Hthrow].
  - unfold Random.getHostToConnect in Hthrow. throws_sentinel.
  - unfold IBalancerWithPriorities.getHostToConnect in Hthrow. throws_sentinel.
  - unfold RoundRobin.getHostToConnect in Hthrow. throws_sentinel.
  - unfold FirstOrRandom.getHostToConnect in Hthrow. throws_sentinel.
Qed.

(** What [isKeeperHostDNSAvailable] lets through is an exception of
    Poco. *)
Lemma isKeeperHostDNSAvailable_throws env attempt address dns e dns' :
  isKeeperHostDNSAvailable env attempt address dns = Throws e dns' →
  e = PocoException OtherNetException ∧
  resolve env attempt address = Raises OtherNetException.
Proof.
  unfold isKeeperHostDNSAvailable.
  destruct (resolve env attempt address) as [|[]]; intros; by simplify_eq.
Qed.

(** Whatever leaves the loop of [createClient] as an exception is the
    [ALL_CONNECTION_TRIES_FAILED] of the balancer or an exception of Poco
    from a socket address: nothing turns it into a [KeeperException]. *)
Lemma createClient_loop_throws env args fuel attempts dns_error_occurred b e b' :
  createClient_loop env args fuel attempts dns_error_occurred b = Some (Throws e b') →
  (∃ count, e = noAvailableEndpoints count) ∨ (∃ p, e = PocoException p).
Proof.
  revert attempts dns_error_occurred b.
  induction fuel as [|fuel IH]; intros attempts dns b; simpl; [done|].
  destruct (Balancer.getHostToConnect _ b) as [endpoint b1|e1 b1|] eqn:Hsel; [| |done].
  - destruct (isKeeperHostDNSAvailable _ _ _ _) as [[] dns'|e1 dns'|] eqn:Hdns; [| | |done].
    + destruct (resolve_again _ _ _) as [|p].
      * destruct (connect _ _ _).
        -- destruct (Balancer.markHostOnline _ _); [|done].
           destruct (Balancer.hasBetterHostToConnect _ _) as [[]|]; [apply IH|done..].
        -- destruct (Balancer.markHostOffline _ _); [apply IH|done].
      * intros [= <- _]. eauto.
    + destruct (Balancer.markHostOffline _ _); [apply IH|done].
    + apply isKeeperHostDNSAvailable_throws in Hdns as [-> _]. intros [= <- _]. eauto.
  - intros [= -> ->]. left. by eapply Balancer_getHostToConnect_throws.
Qed.

(** C4 fails on the code.  With every host failing the DNS probe with a
    transient error, [createClient] over three hosts marks each of them
    offline and, at the fourth round, lets the [ALL_CONNECTION_TRIES_FAILED]
    of [getHostToConnect] leave as it is, whatever the policy: it is not the
    [ZCONNECTIONLOSS] that [throwWhenNoHostAvailable] holds for that case.
    And no run of [createClient] throws either [ZCONNECTIONLOSS] of
    [throwWhenNoHostAvailable]: what it throws is the
    [ALL_CONNECTION_TRIES_FAILED] of the balancer, or the exception of Poco
    that the construction of a socket address raised. *)
Theorem createClient_sentinel_escapes :
  (∀ load_balancing_type fuel,
     ∃ lb', createClient example_dns_down (4 + fuel) (example_lb load_balancing_type)
            = Some (Throws (noAvailableEndpoints 3) lb')) ∧
  noAvailableEndpoints 3 ≠ throwWhenNoHostAvailable true ∧
  (∀ env fuel lb e lb',
     createClient env fuel lb = Some (Throws e lb') →
     ((∃ count, e = noAvailableEndpoints count) ∨ (∃ p, e = PocoException p)) ∧
     ∀ dns_error_occurred, e ≠ throwWhenNoHostAvailable dns_error_occurred).
Proof.
  split_and!.
  - intros [] fuel; eexists; reflexivity.
  - discriminate.
  - intros env fuel lb e lb'. unfold createClient.
    destruct (args lb) as [a|], (connection_balancer lb) as [b|]; try done.
    destruct (createClient_loop env a fuel 0 false b) as [[| |]|] eqn:Hloop;
      simpl; try done.
    intros [= <- _]. apply createClient_loop_throws in Hloop as Hcase.
    split; [done|]. intros [].
    all: by destruct Hcase as [[? ->]|[? ->]].
Qed.

(** *** Why the priorities stay below [SIZE_MAX]

    [getMostPriority] starts from [min_priority = SIZE_MAX] and replaces it
    on [min_priority > p] only: an endpoint whose priority is [SIZE_MAX] is
    never found.  No calculator of the factory gives that value. *)

Lemma getMostPriority_misses_SIZE_MAX :
  statusOf (IBalancerWithPriorities.registry example_max_priority) 0 = Some ONLINE ∧
  IBalancerWithPriorities.getMostPriority ONLINE example_max_priority = Some None.
Proof. split; reflexivity. Qed.

(** * Further properties *)

(** ** Host strings *)

Lemma substring_all s : String.substring 0 (String.length s) s = s.
Proof. induction s as [|c s IH]; simpl; [done|by rewrite IH]. Qed.

Lemma append_nil s : "" +:+ s = s.
Proof. reflexivity. Qed.

Lemma append_cons c p s : String c p +:+ s = String c (p +:+ s).
Proof. reflexivity. Qed.

Lemma prefix_split p s :
  String.prefix p s = true →
  s = p +:+ String.substring (String.length p) (String.length s - String.length p) s.
Proof.
  revert s. induction p as [|c p IH]; intros s.
  - intros _. simpl. by rewrite Nat.sub_0_r, append_nil, substring_all.
  - destruct s as [|c' s]; [done|]. simpl.
    destruct (Ascii.ascii_dec c c') as [->|]; [|done].
    intros Hp. rewrite append_cons. f_equal. by apply IH.
Qed.

Lemma prefix_append p s : String.prefix p (p +:+ s) = true.
Proof.
  induction p as [|c p IH]; [by destruct s|].
  rewrite append_cons. simpl. by destruct (Ascii.ascii_dec c c).
Qed.

Lemma substring_append p s :
  String.substring (String.length p) (String.length (p +:+ s) - String.length p) (p +:+ s) = s.
Proof.
  induction p as [|c p IH].
  - rewrite append_nil. simpl. rewrite Nat.sub_0_r. apply substring_all.
  - rewrite append_cons. simpl. exact IH.
Qed.

(** X1.  [parseForSocketAddress] loses nothing: putting the token
    [secure://] back before the address of a secure host gives the
    configuration string again; a string that starts with the token parses
    to the rest of it, marked secure; and a host is secure exactly when its
    string starts with the token. *)
Theorem parseForSocketAddress_round_trip :
  (∀ raw_host,
     rawHost (parseForSocketAddress raw_host).1 (parseForSocketAddress raw_host).2 = raw_host) ∧
  (∀ host, parseForSocketAddress ("secure://" +:+ host) = (host, true)) ∧
  (∀ raw_host, (parseForSocketAddress raw_host).2 = String.prefix "secure://" raw_host).
Proof.
  split_and!.
  - intros raw. unfold parseForSocketAddress, rawHost.
    destruct (String.prefix "secure://" raw) eqn:Hp; [|done]. simpl.
    symmetry. by apply (prefix_split "secure://" raw).
  - intros host. unfold parseForSocketAddress.
    rewrite (prefix_append "secure://" host).
    pose proof (substring_append "secure://" host) as Hhost.
    change (String.length "secure://") with 9%nat in Hhost. by rewrite Hhost.
  - intros raw. unfold parseForSocketAddress. by destruct (String.prefix _ _).
Qed.

(** ** The registry the constructor builds *)

Lemma registerHosts_endpoints hosts i r :
  endpoints (registerHosts hosts i r) =
  endpoints r ++ imap (λ k raw_host, hostEndpoint raw_host (i + N.of_nat k)) hosts.
Proof.
  revert i r. induction hosts as [|raw hosts IH]; intros i r; simpl.
  - by rewrite app_nil_r.
  - unfold hostEndpoint at 1. destruct (parseForSocketAddress raw) as [address secure].
    rewrite IH. simpl. rewrite <- app_assoc. simpl. rewrite N.add_0_r.
    do 2 f_equal. apply imap_ext. intros k raw' _. simpl. f_equal. lia.
Qed.

Lemma getRangeByStatus_hostEndpoints hosts i :
  Endpoint.id <$>
    filter (λ endpoint, Endpoint.status endpoint = UNDEF)
      (imap (λ k raw_host, hostEndpoint raw_host (i + N.of_nat k)) hosts) =
  (λ k, i + N.of_nat k) <$> seq 0 (length hosts).
Proof.
  revert i. induction hosts as [|raw hosts IH]; intros i; [done|].
  rewrite imap_cons, filter_cons_True by done. simpl. f_equal.
  rewrite (imap_ext _ (λ k raw_host, hostEndpoint raw_host (i + 1 + N.of_nat k))).
  2:{ intros k raw' _. simpl. f_equal. lia. }
  rewrite IH, <- fmap_S_seq, <- list_fmap_compose.
  apply list_fmap_ext. intros k ? _. simpl. lia.
Qed.

(** X2.  The constructor registers one endpoint per host, in order: the
    endpoint at [id] carries the parsed address and secure flag of host
    [id], the id [id] and the status [UNDEF]; past the last host there is no
    endpoint; and the [UNDEF] range is [0, 1, ..., hosts.size()-1]. *)
Theorem IBalancerWithEndpointStatuses_lookup hosts id :
  findEndpointById id (IBalancerWithEndpointStatuses hosts) =
    (λ raw_host, hostEndpoint raw_host id) <$> hosts !! N.to_nat id ∧
  getEndpointsCount (IBalancerWithEndpointStatuses hosts) = N.of_nat (length hosts) ∧
  getRangeByStatus UNDEF (IBalancerWithEndpointStatuses hosts) =
    N.of_nat <$> seq 0 (length hosts).
Proof.
  unfold findEndpointById, getEndpointsCount, getRangeByStatus, IBalancerWithEndpointStatuses.
  rewrite registerHosts_endpoints. simpl. split_and!.
  - rewrite list_lookup_imap. destruct (hosts !! N.to_nat id); [|done].
    simpl. do 2 f_equal. lia.
  - by rewrite length_imap.
  - rewrite getRangeByStatus_hostEndpoints. apply list_fmap_ext. intros k ? _. lia.
Qed.

(** ** Marking hosts *)

Lemma set_status_set_status s1 s2 endpoint :
  Endpoint.set_status s2 (Endpoint.set_status s1 endpoint) = Endpoint.set_status s2 endpoint.
Proof. done. Qed.


(** ** Ranges and counts *)

Lemma getRangeByStatus_lengths r :
  (length (getRangeByStatus ONLINE r) + length (getRangeByStatus UNDEF r) +
   length (getRangeByStatus OFFLINE r) = length (endpoints r))%nat.
Proof.
  unfold getRangeByStatus. rewrite !length_fmap.
  induction (endpoints r) as [|e l IH]; [done|].
  rewrite !filter_cons. destruct (Endpoint.status e) eqn:He;
    repeat case_decide; try done; simpl; lia.
Qed.

(** X4.  In a registry whose endpoints carry their index as id,
    [getRangeByStatus] returns the ids of the endpoints of that status, each
    once, in ascending order. *)
Theorem getRangeByStatus_ascending r status :
  ids_dense r →
  StronglySorted N.lt (getRangeByStatus status r) ∧
  ∀ id, id ∈ getRangeByStatus status r ↔ statusOf r id = Some status.
Proof.
  intros Hr. split; [by apply getRangeByStatus_sorted|].
  intros id. by apply elem_of_getRangeByStatus.
Qed.

Lemma getRangeByStatus_ascending_witness :
  let r := IBalancerWithEndpointStatuses ["a"; "b"; "secure://c"] in
  StronglySorted N.lt (getRangeByStatus UNDEF r) ∧
  ∀ id, id ∈ getRangeByStatus UNDEF r ↔ statusOf r id = Some UNDEF.
Proof.
  intros r. apply (getRangeByStatus_ascending r UNDEF).
  intros [|[|[|i]]] e; simpl; intros [= <-]; reflexivity.
Defined.

Lemma getRangeByStatus_reset r :
  getRangeByStatus OFFLINE (resetOfflineStatuses r) = [] ∧
  getRangeByStatus ONLINE (resetOfflineStatuses r) = getRangeByStatus ONLINE r.
Proof.
  unfold getRangeByStatus, resetOfflineStatuses. simpl.
  induction (endpoints r) as [|e l [IH1 IH2]]; [done|].
  rewrite fmap_cons, !filter_cons, !resetOfflineStatus_status.
  destruct (Endpoint.status e) eqn:He; simpl; split; try done.
  rewrite resetOfflineStatus_id. f_equal. exact IH2.
Qed.

(** X5.  [getAvailableEndpointsCount] is the number of endpoints less the
    [OFFLINE] ones (the sum does not wrap below [2^64] endpoints); it is
    zero exactly when every endpoint is [OFFLINE]; and after
    [resetOfflineStatuses] it is the number of endpoints. *)
Theorem getAvailableEndpointsCount_spec r :
  getEndpointsCount r < 2 ^ 64 →
  getAvailableEndpointsCount r + N.of_nat (length (getRangeByStatus OFFLINE r))
    = getEndpointsCount r ∧
  (getAvailableEndpointsCount r = 0 ↔ none_available r) ∧
  getAvailableEndpointsCount (resetOfflineStatuses r) = getEndpointsCount r.
Proof.
  intros Hcount. pose proof (getRangeByStatus_lengths r) as Hr.
  pose proof (getRangeByStatus_lengths (resetOfflineStatuses r)) as Hreset.
  destruct (getRangeByStatus_reset r) as [Hoff Hon].
  unfold getAvailableEndpointsCount, size_add, getEndpointsCount in *.
  rewrite Hoff in Hreset. simpl in Hreset. rewrite length_fmap in Hreset.
  rewrite !N.mod_small by lia. split_and!; [lia| |lia].
  split.
  - intros Hzero. apply ranges_nil_none_available; apply nil_length_inv; lia.
  - intros Hnone. rewrite !none_available_ranges by done. done.
Qed.

Lemma getAvailableEndpointsCount_spec_witness :
  getAvailableEndpointsCount (resetOfflineStatuses (IBalancerWithEndpointStatuses ["a"; "b"])) = 2.
Proof.
  apply (getAvailableEndpointsCount_spec (IBalancerWithEndpointStatuses ["a"; "b"])).
  reflexivity.
Defined.

(** X6.  [resetOfflineStatuses] twice is [resetOfflineStatuses] once; it
    leaves no endpoint [OFFLINE] and the [ONLINE] range as it was; and on a
    registry with every endpoint [OFFLINE] it leaves every endpoint
    [UNDEF]. *)
Theorem resetOfflineStatuses_idempotent r :
  resetOfflineStatuses (resetOfflineStatuses r) = resetOfflineStatuses r ∧
  getRangeByStatus OFFLINE (resetOfflineStatuses r) = [] ∧
  getRangeByStatus ONLINE (resetOfflineStatuses r) = getRangeByStatus ONLINE r ∧
  (none_available r →
   Forall (λ endpoint, Endpoint.status endpoint = UNDEF) (endpoints (resetOfflineStatuses r))).
Proof.
  destruct (getRangeByStatus_reset r) as [Hoff Hon]. split_and!; [|done..|].
  - unfold resetOfflineStatuses. simpl. f_equal. rewrite <- list_fmap_compose.
    apply list_fmap_ext. intros i e _. simpl. unfold resetOfflineStatus at 1.
    rewrite decide_False; [done|]. rewrite resetOfflineStatus_status. by case_decide.
  - apply reset_all_undef.
Qed.

(** ** Selections, case by case *)

Lemma asEndpoint_id fallback id r info :
  asEndpoint fallback id r = Some info →
  EndpointInfo.id info = id ∧
  use_fallback_session_lifetime (EndpointInfo.settings info) = fallback.
Proof.
  unfold asEndpoint. destruct (findEndpointById id r); [|done].
  simpl. by intros [= <-].
Qed.

(** The draw of [getHostFrom] from the range of a status that is not
    [OFFLINE], over at most [2^31] endpoints: an endpoint of the range. *)
Lemma drawFrom_asEndpoint fallback s r g :
  ids_dense r → getEndpointsCount r ≤ 2 ^ 31 →
  s ≠ OFFLINE → getRangeByStatus s r ≠ [] →
  ∃ info,
    (drawFrom (getRangeByStatus s r) g ≫= λ id, asEndpoint fallback id r) = Some info ∧
    EndpointInfo.id info ∈ getRangeByStatus s r ∧
    statusOf r (EndpointInfo.id info) = Some s ∧
    use_fallback_session_lifetime (EndpointInfo.settings info) = fallback.
Proof.
  intros Hr Hn Hs Hne. pose proof (length_getRangeByStatus s r).
  destruct (drawFrom_elem_of _ g Hne) as (id & Hdraw & Hid); [lia|].
  rewrite Hdraw.
  destruct (asEndpoint_of_range fallback _ _ _ Hr Hs Hid) as (info & ? & <- & ? & ? & _).
  simpl. eauto 10.
Qed.

(** Every endpoint of the range is the one some draw gives. *)
Lemma drawFrom_asEndpoint_any fallback s r id :
  ids_dense r → getEndpointsCount r ≤ 2 ^ 31 →
  s ≠ OFFLINE → id ∈ getRangeByStatus s r →
  ∃ g info,
    (drawFrom (getRangeByStatus s r) g ≫= λ id, asEndpoint fallback id r) = Some info ∧
    EndpointInfo.id info = id.
Proof.
  intros Hr Hn Hs Hid. pose proof (length_getRangeByStatus s r).
  destruct (drawFrom_any (getRangeByStatus s r) id) as [g Hdraw]; [lia|done|].
  destruct (asEndpoint_of_range fallback _ _ _ Hr Hs Hid) as (info & ? & ? & _).
  exists g, info. rewrite Hdraw. done.
Qed.

Lemma Random_reachable hosts us b :
  N.of_nat (length hosts) ≤ 2 ^ 31 →
  applyUpdates us (RandomBalancer (Random.new hosts)) = Some (RandomBalancer b) →
  ids_dense (Random.registry b) ∧ getEndpointsCount (Random.registry b) ≤ 2 ^ 31.
Proof.
  intros Hlen Hus. eapply applyUpdates_wf in Hus as [[? ?] _]; [done|].
  split; [apply IBalancerWithEndpointStatuses_dense|]. simpl.
  by rewrite IBalancerWithEndpointStatuses_count.
Qed.

(** X7.  The random balancer (at most [2^31] hosts) after any calls: when
    some endpoint is [ONLINE] it returns an [ONLINE] endpoint, the one the
    draw picks; when none is and some endpoint is [UNDEF], an [UNDEF]
    endpoint, the one the draw picks; in both cases with
    [use_fallback_session_lifetime = false] and the balancer unchanged, and
    every endpoint of the set is returned for some draw; and when every
    endpoint is [OFFLINE] (or there is none) it resets the offline statuses
    and throws [ALL_CONNECTION_TRIES_FAILED] with the number of
    endpoints. *)
Theorem Random_getHostToConnect_cases hosts us b g :
  N.of_nat (length hosts) ≤ 2 ^ 31 →
  applyUpdates us (RandomBalancer (Random.new hosts)) = Some (RandomBalancer b) →
  let r := Random.registry b in
  let online := getRangeByStatus ONLINE r in
  let undef := getRangeByStatus UNDEF r in
  (online ≠ [] →
   (∃ info, Random.getHostToConnect g b = Returns info b ∧
            EndpointInfo.id info ∈ online ∧
            statusOf r (EndpointInfo.id info) = Some ONLINE ∧
            use_fallback_session_lifetime (EndpointInfo.settings info) = false) ∧
   (∀ id, id ∈ online →
      ∃ g' info, Random.getHostToConnect g' b = Returns info b ∧
                 EndpointInfo.id info = id)) ∧
  (online = [] → undef ≠ [] →
   (∃ info, Random.getHostToConnect g b = Returns info b ∧
            EndpointInfo.id info ∈ undef ∧
            statusOf r (EndpointInfo.id info) = Some UNDEF ∧
            use_fallback_session_lifetime (EndpointInfo.settings info) = false) ∧
   (∀ id, id ∈ undef →
      ∃ g' info, Random.getHostToConnect g' b = Returns info b ∧
                 EndpointInfo.id info = id)) ∧
  (online = [] → undef = [] →
   Random.getHostToConnect g b =
     Throws (noAvailableEndpoints (getEndpointsCount r))
            (Random.mk (resetOfflineStatuses r))).
Proof.
  intros Hlen Hus r online undef.
  destruct (Random_reachable _ _ _ Hlen Hus) as [Hdense Hn].
  subst online undef.
  unfold Random.getHostToConnect, Random.getHostFrom, asOptimalEndpoint.
  fold r. split_and!.
  - intros Hon. rewrite decide_True by done. split.
    + destruct (drawFrom_asEndpoint false ONLINE r g) as (info & -> & ?); [done..|].
      simpl. eauto.
    + intros id Hid.
      destruct (drawFrom_asEndpoint_any false ONLINE r id) as (g' & info & Hdraw & ?);
        [done..|]. exists g', info. rewrite decide_True by done. rewrite Hdraw. done.
  - intros Hon Hun. rewrite decide_False by (by rewrite Hon; auto).
    rewrite decide_True by done. split.
    + destruct (drawFrom_asEndpoint false UNDEF r g) as (info & -> & ?); [done..|].
      simpl. eauto.
    + intros id Hid.
      destruct (drawFrom_asEndpoint_any false UNDEF r id) as (g' & info & Hdraw & ?);
        [done..|]. exists g', info. rewrite decide_False by (by rewrite Hon; auto).
      rewrite decide_True by done. rewrite Hdraw. done.
  - intros Hon Hun. rewrite decide_False by (by rewrite Hon; auto).
    rewrite decide_False by (by rewrite Hun; auto).
    by destruct (noEndpointsLeft_spec r Hon Hun) as [_ ->].
Qed.

Lemma Random_getHostToConnect_cases_witness :
  let r := Random.registry example_random in
  let undef := getRangeByStatus UNDEF r in
  (∃ info, Random.getHostToConnect 7 example_random = Returns info example_random ∧
           EndpointInfo.id info ∈ undef ∧
           statusOf r (EndpointInfo.id info) = Some UNDEF ∧
           use_fallback_session_lifetime (EndpointInfo.settings info) = false) ∧
  (∀ id, id ∈ undef →
     ∃ g' info, Random.getHostToConnect g' example_random = Returns info example_random ∧
                EndpointInfo.id info = id).
Proof.
  intros r undef.
  apply (proj1 (proj2 (Random_getHostToConnect_cases
                         ["a"; "b"; "secure://c"] [MarkHostOffline 1] example_random 7
                         ltac:(vm_compute; discriminate) eq_refl)));
    [reflexivity|vm_compute; discriminate].
Defined.

(** *** The round robin *)

Lemma RoundRobin_reachable hosts us b :
  hosts ≠ [] →
  applyUpdates us (RoundRobinBalancer (RoundRobin.new hosts)) = Some (RoundRobinBalancer b) →
  ids_dense (RoundRobin.registry b) ∧
  RoundRobin.round_robin_id b < getEndpointsCount (RoundRobin.registry b) ∧
  getEndpointsCount (RoundRobin.registry b) = N.of_nat (length hosts).
Proof.
  intros Hne Hus. eapply applyUpdates_wf in Hus as [[? ?] Hcount].
  - split_and!; [done..|]. unfold Balancer.getEndpointsCount in Hcount. simpl in Hcount.
    by rewrite Hcount, IBalancerWithEndpointStatuses_count.
  - split; [apply IBalancerWithEndpointStatuses_dense|]. simpl.
    rewrite IBalancerWithEndpointStatuses_count. destruct hosts; [done|simpl; lia].
Qed.

Lemma head_getRangeByStatus s r id rest :
  ids_dense r → getRangeByStatus s r = id :: rest →
  statusOf r id = Some s ∧ ∀ j, statusOf r j = Some s → id ≤ j.
Proof.
  intros Hr Hrange. pose proof (getRangeByStatus_sorted s r Hr) as Hsorted.
  rewrite Hrange in Hsorted. apply StronglySorted_inv in Hsorted as [_ Hlt].
  split.
  - apply elem_of_getRangeByStatus; [done|]. rewrite Hrange. apply list_elem_of_here.
  - intros j Hj. apply (proj2 (elem_of_getRangeByStatus s r j Hr)) in Hj.
    rewrite Hrange in Hj. apply elem_of_cons in Hj as [->|Hj]; [lia|].
    rewrite Forall_forall in Hlt. specialize (Hlt _ Hj). lia.
Qed.

Lemma size_add_1 id n : id < n → n < 2 ^ 64 → size_add id 1 = id + 1.
Proof. intros. unfold size_add. apply N.mod_small. lia. Qed.

(** X8.  One selection of the round robin (fewer than [2^64] hosts) after
    any calls, with [cursor] the value of [round_robin_id]: an [ONLINE]
    cursor endpoint is returned and the cursor moves one on, cyclically;
    otherwise the [ONLINE] endpoint of lowest id is returned and the cursor
    is put right after it; otherwise an [UNDEF] cursor endpoint is returned
    and the cursor stays; otherwise the [UNDEF] endpoint of lowest id is
    returned and the cursor is put right after it; otherwise the offline
    statuses are reset, the cursor stays and [ALL_CONNECTION_TRIES_FAILED] is
    thrown.  The registry is untouched on return and the session lifetime
    is never the fallback one. *)
Theorem RoundRobin_getHostToConnect_cases hosts us b :
  hosts ≠ [] → N.of_nat (length hosts) < 2 ^ 64 →
  applyUpdates us (RoundRobinBalancer (RoundRobin.new hosts)) = Some (RoundRobinBalancer b) →
  let r := RoundRobin.registry b in
  let cursor := RoundRobin.round_robin_id b in
  let count := getEndpointsCount r in
  let least (s : Status) (id : size_t) :=
    statusOf r id = Some s ∧ ∀ j, statusOf r j = Some s → id ≤ j in
  match RoundRobin.getHostToConnect b with
  | Returns info b' =>
      use_fallback_session_lifetime (EndpointInfo.settings info) = false ∧
      RoundRobin.registry b' = r ∧
      ((statusOf r cursor = Some ONLINE ∧ EndpointInfo.id info = cursor ∧
        RoundRobin.round_robin_id b' = (cursor + 1) mod count) ∨
       (statusOf r cursor ≠ Some ONLINE ∧ least ONLINE (EndpointInfo.id info) ∧
        RoundRobin.round_robin_id b' = (EndpointInfo.id info + 1) mod count) ∨
       (statusOf r cursor = Some UNDEF ∧ getRangeByStatus ONLINE r = [] ∧
        EndpointInfo.id info = cursor ∧ RoundRobin.round_robin_id b' = cursor) ∨
       (statusOf r cursor = Some OFFLINE ∧ getRangeByStatus ONLINE r = [] ∧
        least UNDEF (EndpointInfo.id info) ∧
        RoundRobin.round_robin_id b' = (EndpointInfo.id info + 1) mod count))
  | Throws e b' =>
      none_available r ∧ e = noAvailableEndpoints count ∧
      b' = RoundRobin.mk (resetOfflineStatuses r) cursor
  | Undefined => False
  end.
Proof.
  intros Hne Hlen Hus r cursor count least.
  destruct (RoundRobin_reachable _ _ _ Hne Hus) as (Hdense & Hcur & Hcount).
  fold r cursor count in Hdense, Hcur, Hcount.
  unfold RoundRobin.getHostToConnect. fold r cursor.
  destruct (findEndpointById cursor r) as [endpoint|] eqn:He; last first.
  { unfold findEndpointById in He. apply lookup_ge_None in He.
    unfold count, getEndpointsCount in Hcur. lia. }
  assert (statusOf r cursor = Some (Endpoint.status endpoint)) as Hst.
  { unfold statusOf. by rewrite He. }
  assert (∀ s id rest, getRangeByStatus s r = id :: rest →
    ∃ info, RoundRobin.selectEndpoint id b =
              Returns info (RoundRobin.mk r ((id + 1) mod count)) ∧
            EndpointInfo.id info = id ∧
            use_fallback_session_lifetime (EndpointInfo.settings info) = false ∧
            least s id) as Hsel.
  { intros s id rest Hrange.
    destruct (head_getRangeByStatus _ _ _ _ Hdense Hrange) as [Hid Hleast].
    destruct (findEndpointById_status _ _ _ Hid) as (e & Hfind & _).
    destruct (selectEndpoint_spec _ _ _ Hfind) as (info & -> & ? & ?).
    fold r count. rewrite (size_add_1 id count) by (by apply (statusOf_lt r id s) || lia).
    eexists. split_and!; done. }
  case_decide as Hon.
  { destruct (selectEndpoint_spec _ _ _ He) as (info & -> & ? & ?).
    fold r count cursor. rewrite (size_add_1 cursor count) by (done || lia). simpl.
    split_and!; [done..|]. left. by rewrite Hst, Hon. }
  assert (statusOf r cursor ≠ Some ONLINE) as Hnot by (rewrite Hst; congruence).
  destruct (getRangeByStatus ONLINE r) as [|id rest] eqn:Honline.
  2:{ rewrite decide_True by done. simpl.
      destruct (Hsel ONLINE id rest Honline) as (info & -> & <- & ? & ?). simpl.
      split_and!; [done..|]. right. left. done. }
  rewrite decide_False by auto.
  case_decide as Hundef.
  { unfold asOptimalEndpoint, asEndpoint. rewrite He. simpl.
    split_and!; [done..|]. right. right. left. by rewrite Hst, Hundef. }
  assert (statusOf r cursor = Some OFFLINE) as Hoff.
  { rewrite Hst. by destruct (Endpoint.status endpoint). }
  destruct (getRangeByStatus UNDEF r) as [|id rest] eqn:Hrange.
  2:{ rewrite decide_True by done. simpl.
      destruct (Hsel UNDEF id rest Hrange) as (info & -> & <- & ? & ?). simpl.
      split_and!; [done..|]. right. right. right. done. }
  rewrite decide_False by auto.
  destruct (noEndpointsLeft_spec r Honline Hrange) as [Hnone ->]. simpl. done.
Qed.

Lemma RoundRobin_getHostToConnect_cases_witness :
  ∃ info b', RoundRobin.getHostToConnect example_round_robin = Returns info b' ∧
             EndpointInfo.id info = 2 ∧ RoundRobin.round_robin_id b' = 0.
Proof.
  pose proof (RoundRobin_getHostToConnect_cases
                ["a"; "b"; "secure://c"] [MarkHostOnline 2] example_round_robin
                ltac:(discriminate) ltac:(reflexivity) eq_refl) as Hcases.
  destruct (RoundRobin.getHostToConnect example_round_robin) as [info b'| |] eqn:Hsel;
    [|discriminate Hsel..].
  exists info, b'. injection Hsel as <- <-. repeat split.
Defined.

Lemma markHost_same s id r endpoint :
  findEndpointById id r = Some endpoint → Endpoint.status endpoint = s →
  markHost s id r = Some r.
Proof.
  unfold findEndpointById, markHost, getEndpointsCount. intros He Hs.
  rewrite decide_True by (apply lookup_lt_Some in He; lia).
  destruct r as [l]. simpl in *. do 2 f_equal. apply list_eq. intros i.
  rewrite list_lookup_alter. case_decide; [|done]. subst i. rewrite He. simpl.
  by rewrite <- Hs, set_status_same.
Qed.

Lemma all_online_run rounds b :
  getEndpointsCount (RoundRobin.registry b) < 2 ^ 64 →
  RoundRobin.round_robin_id b < getEndpointsCount (RoundRobin.registry b) →
  Forall (λ endpoint, Endpoint.status endpoint = ONLINE) (endpoints (RoundRobin.registry b)) →
  selectAndMarkOnline rounds b =
    Some ((λ k, (RoundRobin.round_robin_id b + N.of_nat k)
                  mod getEndpointsCount (RoundRobin.registry b)) <$> seq 0 rounds).
Proof.
  revert b. induction rounds as [|rounds IH]; intros [r cursor] Hn Hcur Hall; [done|].
  simpl in *.
  destruct (findEndpointById cursor r) as [endpoint|] eqn:He; last first.
  { unfold findEndpointById in He. apply lookup_ge_None in He.
    unfold getEndpointsCount in Hcur. lia. }
  assert (Endpoint.status endpoint = ONLINE) as Hon.
  { rewrite Forall_forall in Hall. apply Hall. by eapply list_elem_of_lookup_2. }
  unfold RoundRobin.getHostToConnect. simpl. rewrite He, decide_True by done.
  destruct (selectEndpoint_spec cursor (RoundRobin.mk r cursor) endpoint He)
    as (info & -> & -> & _). simpl.
  unfold markHostOnline. rewrite (markHost_same ONLINE cursor r endpoint) by done. simpl.
  rewrite IH; simpl; [|done|apply N.mod_upper_bound; lia|done].
  f_equal. rewrite N.add_0_r, (N.mod_small cursor) by done. f_equal.
  rewrite <- fmap_S_seq. rewrite <- list_fmap_compose. apply list_fmap_ext. intros k ? _. simpl.
  rewrite (size_add_1 cursor (getEndpointsCount r)) by done.
  rewrite N.Div0.add_mod_idemp_l. f_equal. lia.
Qed.

(** X9.  When every endpoint is [ONLINE], rounds of [getHostToConnect()]
    followed by [markHostOnline(result.id)] visit the endpoints in cyclic
    order from the cursor: [cursor, cursor+1, ...] modulo the number of
    hosts. *)
Theorem RoundRobin_cycles_when_online hosts us b rounds :
  hosts ≠ [] → N.of_nat (length hosts) < 2 ^ 64 →
  applyUpdates us (RoundRobinBalancer (RoundRobin.new hosts)) = Some (RoundRobinBalancer b) →
  Forall (λ endpoint, Endpoint.status endpoint = ONLINE) (endpoints (RoundRobin.registry b)) →
  selectAndMarkOnline rounds b =
    Some ((λ k, (RoundRobin.round_robin_id b + N.of_nat k) mod N.of_nat (length hosts))
            <$> seq 0 rounds).
Proof.
  intros Hne Hlen Hus Hall.
  destruct (RoundRobin_reachable _ _ _ Hne Hus) as (_ & Hcur & Hcount).
  rewrite <- Hcount. apply all_online_run; [lia|done..].
Qed.

Lemma RoundRobin_cycles_when_online_witness :
  selectAndMarkOnline 5 example_all_online = Some [0; 1; 2; 0; 1].
Proof.
  apply (RoundRobin_cycles_when_online
           ["a"; "b"; "secure://c"] [MarkHostOnline 0; MarkHostOnline 1; MarkHostOnline 2]
           example_all_online 5 ltac:(discriminate) ltac:(reflexivity) eq_refl).
  by repeat constructor.
Defined.

(** *** The session-lifetime hint *)

Lemma returning_inv {S A : Type} (s s' : S) (r : option A) a :
  returning s r = Returns a s' → r = Some a ∧ s' = s.
Proof. destruct r; simpl; intros; by simplify_eq. Qed.

Lemma drawFrom_inv range g id : drawFrom range g = Some id → id ∈ range.
Proof.
  unfold drawFrom. case_decide; [done|].
  destruct (uniform_int_distribution _ _ _); [|done]. simpl.
  apply list_elem_of_lookup_2.
Qed.

Lemma noEndpointsLeft_returns r info r' : noEndpointsLeft r ≠ Returns info r'.
Proof. unfold noEndpointsLeft. by case_decide. Qed.

Lemma withState_returns {S S' A : Type} (f : S → S') (r : Result S A) a s' :
  withState f r = Returns a s' → ∃ s, r = Returns a s ∧ s' = f s.
Proof. destruct r; simpl; intros; simplify_eq; eauto. Qed.

Lemma getHostWithSetting_inv id b info :
  IBalancerWithPriorities.getHostWithSetting id b = Some info →
  EndpointInfo.id info = id ∧
  ∃ p p0, priorityOf b id = Some p ∧ priorityOf b 0 = Some p0 ∧
          (use_fallback_session_lifetime (EndpointInfo.settings info) = false ↔ p = p0).
Proof.
  unfold IBalancerWithPriorities.getHostWithSetting,
    IBalancerWithPriorities.isOptimalEndpoint, IBalancerWithPriorities.std_min, priorityOf.
  rewrite decide_False by lia. change (N.to_nat 0) with 0%nat.
  destruct (IBalancerWithPriorities.priorities b !! N.to_nat id) as [p|]; [|done].
  destruct (IBalancerWithPriorities.priorities b !! 0%nat) as [p0|]; [|done]. simpl.
  case_bool_decide; intros [? ?]%asEndpoint_id; (split; [done|]);
    exists p, p0; split_and!; try done; split; intros; congruence.
Qed.

(** X10.  The session-lifetime hint of a returned endpoint, by policy: the
    random balancer and the round robin never ask for the fallback
    lifetime; first-or-random asks for it exactly when the endpoint is not
    endpoint 0; the priority-ordered balancer asks for it exactly when the
    priority of the endpoint differs from the priority of endpoint 0. *)
Theorem getHostToConnect_session_lifetime g b info b' :
  ids_dense (registryOf b) →
  Balancer.getHostToConnect g b = Returns info b' →
  let fallback := use_fallback_session_lifetime (EndpointInfo.settings info) in
  match b with
  | RandomBalancer _ | RoundRobinBalancer _ => fallback = false
  | FirstOrRandomBalancer _ => fallback = false ↔ EndpointInfo.id info = 0
  | PrioritiesBalancer pb =>
      ∃ p p0, priorityOf pb (EndpointInfo.id info) = Some p ∧ priorityOf pb 0 = Some p0 ∧
              (fallback = false ↔ p = p0)
  end.
Proof.
  intros Hdense Hret fallback. subst fallback.
  destruct b as [b|b|b|b]; simpl in *;
    apply withState_returns in Hret as (b1 & Hret & _).
  - unfold Random.getHostToConnect, Random.getHostFrom in Hret.
    repeat case_decide;
      try (apply returning_inv in Hret as [Hret _];
           destruct (drawFrom _ _); [|done]; simpl in Hret;
           by apply asEndpoint_id in Hret as [_ ?]).
    apply withState_returns in Hret as (? & Hret & _).
    by apply noEndpointsLeft_returns in Hret.
  - unfold IBalancerWithPriorities.getHostToConnect in Hret.
    repeat case_match; try done;
      try (apply returning_inv in Hret as [Hret _];
           by apply getHostWithSetting_inv in Hret as [-> ?]).
    apply withState_returns in Hret as (? & Hret & _).
    by apply noEndpointsLeft_returns in Hret.
  - unfold RoundRobin.getHostToConnect, RoundRobin.selectEndpoint in Hret.
    repeat (case_match || case_decide); try done;
      try (apply returning_inv in Hret as [Hret _];
           by apply asEndpoint_id in Hret as [_ ?]).
    all: apply withState_returns in Hret as (? & Hret & _).
    all: by apply noEndpointsLeft_returns in Hret.
  - unfold FirstOrRandom.getHostToConnect, FirstOrRandom.getHostFrom in Hret.
    destruct (findEndpointById 0 _) as [endpoint|] eqn:He; [|done].
    assert (statusOf (FirstOrRandom.registry b) 0 = Some (Endpoint.status endpoint)) as Hst.
    { unfold statusOf. by rewrite He. }
    assert (∀ s, Endpoint.status endpoint ≠ s →
      returning b (drawFrom (getRangeByStatus s (FirstOrRandom.registry b)) g ≫=
                     λ id, asTemporaryEndpoint id (FirstOrRandom.registry b))
        = Returns info b1 →
      use_fallback_session_lifetime (EndpointInfo.settings info) = false ↔
      EndpointInfo.id info = 0) as Hdraw.
    { intros s Hs [Hdraw _]%returning_inv.
      destruct (drawFrom (getRangeByStatus s _) g) as [id|] eqn:Hid; [|done].
      simpl in Hdraw.
      apply drawFrom_inv, (elem_of_getRangeByStatus s _ id Hdense) in Hid.
      apply asEndpoint_id in Hdraw as [-> ->].
      split; [done|]. intros ->. rewrite Hst in Hid. congruence. }
    assert (returning b (asOptimalEndpoint 0 (FirstOrRandom.registry b)) = Returns info b1 →
      use_fallback_session_lifetime (EndpointInfo.settings info) = false ↔
      EndpointInfo.id info = 0) as Hfirst.
    { intros [[-> ->]%asEndpoint_id _]%returning_inv. done. }
    repeat case_decide; eauto.
    apply withState_returns in Hret as (? & Hret & _).
    by apply noEndpointsLeft_returns in Hret.
Qed.

Lemma getHostToConnect_session_lifetime_witness :
  ∃ info b', Balancer.getHostToConnect 5 (FirstOrRandomBalancer example_first_or_random)
             = Returns info b' ∧
             (use_fallback_session_lifetime (EndpointInfo.settings info) = false ↔
              EndpointInfo.id info = 0).
Proof.
  eexists _, _. split; [reflexivity|].
  refine (getHostToConnect_session_lifetime
            5 (FirstOrRandomBalancer example_first_or_random) _ _ _ eq_refl).
  intros [|[|[|i]]] e; simpl; intros [= <-]; reflexivity.
Defined.

(** ** After a failed selection *)

Lemma reachable_count metrics args_ lb b0 us b :
  metrics_bounded metrics (hosts args_) →
  N.of_nat (length (hosts args_)) ≤ 2 ^ 31 →
  init metrics args_ newZooKeeperLoadBalancer = Returns () lb →
  connection_balancer lb = Some b0 →
  applyUpdates us b0 = Some b →
  wf b ∧ 0 < Balancer.getEndpointsCount b ∧
  Balancer.getEndpointsCount b = N.of_nat (length (hosts args_)).
Proof.
  intros Hm Hlen Hinit Hb0 Hus.
  destruct (init_inv _ _ _ _ _ Hinit Hb0) as [Hne ->].
  destruct (applyUpdates_wf _ _ _ (wf_getConnectionBalancer _ _ _ Hm Hne Hlen) Hus)
    as [Hwf Hcount].
  rewrite Hcount, getEndpointsCount_getConnectionBalancer.
  split_and!; [done| |done]. destruct (hosts args_); [done|simpl; lia].
Qed.

Lemma all_undef_available r id :
  Forall (λ endpoint, Endpoint.status endpoint = UNDEF) (endpoints r) →
  available r id → statusOf r id = Some UNDEF.
Proof.
  intros Hall [Hid|Hid]; [|done].
  destruct (findEndpointById_status _ _ _ Hid) as (e & He & Hs).
  rewrite Forall_forall in Hall. apply list_elem_of_lookup_2, Hall in He. congruence.
Qed.

(** X11.  A selection that throws leaves every endpoint [UNDEF], and the
    selection after it returns an endpoint: [getHostToConnect] never throws
    twice in a row, whatever the policy. *)
Theorem getHostToConnect_after_failure metrics args_ lb b0 us b g g' e b' :
  metrics_bounded metrics (hosts args_) →
  N.of_nat (length (hosts args_)) ≤ 2 ^ 31 →
  init metrics args_ newZooKeeperLoadBalancer = Returns () lb →
  connection_balancer lb = Some b0 →
  applyUpdates us b0 = Some b →
  Balancer.getHostToConnect g b = Throws e b' →
  Forall (λ endpoint, Endpoint.status endpoint = UNDEF) (endpoints (registryOf b')) ∧
  ∃ info b'', Balancer.getHostToConnect g' b' = Returns info b'' ∧
              statusOf (registryOf b') (EndpointInfo.id info) = Some UNDEF.
Proof.
  intros Hm Hlen Hinit Hb0 Hus Hthrow.
  destruct (reachable_count _ _ _ _ _ _ Hm Hlen Hinit Hb0 Hus) as (Hwf & Hpos & _).
  destruct (Balancer_getHostToConnect_spec g b Hwf) as (Hsel & _ & Hreset).
  rewrite Hthrow in Hsel. destruct Hsel as (Hnone & _ & Hr).
  specialize (Hreset _ _ Hthrow). subst b'.
  pose proof (wf_resetOfflineStatuses b Hwf) as Hwf'.
  assert (Forall (λ endpoint, Endpoint.status endpoint = UNDEF)
            (endpoints (registryOf (Balancer.resetOfflineStatuses b)))) as Hall.
  { rewrite Hr. by apply reset_all_undef. }
  split; [done|].
  destruct (Balancer_getHostToConnect_spec g' _ Hwf') as (Hsel & _ & _).
  destruct (Balancer.getHostToConnect g' _) as [info b''|e' b''|]; simpl in Hsel; [| |done].
  - destruct Hsel as [Hav _]. eexists _, _. split; [done|]. by apply all_undef_available.
  - destruct Hsel as (Hnone' & _). exfalso.
    unfold none_available in Hnone'. rewrite Hr in Hnone', Hall.
    unfold Balancer.getEndpointsCount, getEndpointsCount in Hpos.
    assert (length (endpoints (resetOfflineStatuses (registryOf b))) =
            length (endpoints (registryOf b))) as Hlen'.
    { unfold resetOfflineStatuses. simpl. apply length_fmap. }
    destruct (endpoints (resetOfflineStatuses (registryOf b))) as [|e0 l];
      [simpl in Hlen'; lia|].
    apply Forall_cons_1 in Hall as [? _]. apply Forall_cons_1 in Hnone' as [? _].
    congruence.
Qed.

Lemma getHostToConnect_after_failure_witness :
  ∃ e b', Balancer.getHostToConnect 0 example_exhausted = Throws e b' ∧
  ∃ info b'', Balancer.getHostToConnect 1 b' = Returns info b'' ∧
              statusOf (registryOf b') (EndpointInfo.id info) = Some UNDEF.
Proof.
  eexists _, _. split; [reflexivity|].
  refine (proj2 (getHostToConnect_after_failure example_metrics
           (example_args IN_ORDER) (example_lb IN_ORDER) (example_balancer IN_ORDER)
           [MarkHostOffline 0; MarkHostOffline 1; MarkHostOffline 2]
           example_exhausted 0 1 _ _ _ _ eq_refl eq_refl eq_refl eq_refl)).
  - apply example_metrics_bounded.
  - vm_compute. discriminate.
Defined.

(** ** A better host after a connection *)

Lemma most_priority_unique b s id id' :
  most_priority b s id → most_priority b s id' → id = id'.
Proof.
  intros (Hid & p & Hp & Hmin) (Hid' & p' & Hp' & Hmin').
  destruct (Hmin _ _ Hid' Hp') as [?|[? ?]], (Hmin' _ _ Hid Hp) as [?|[? ?]]; lia.
Qed.

Lemma priorities_wf_markHost s id b r :
  priorities_wf b → markHost s id (IBalancerWithPriorities.registry b) = Some r →
  priorities_wf (IBalancerWithPriorities.mk r (IBalancerWithPriorities.priorities b)).
Proof.
  intros [Hdense Hlen] Hr. split; simpl; [by eapply ids_dense_markHost|].
  apply getEndpointsCount_markHost in Hr. unfold getEndpointsCount in Hr. lia.
Qed.

Lemma Priorities_hasBetter_after b info b' r :
  priorities_wf b → priorities_below_max b →
  IBalancerWithPriorities.getHostToConnect b = Returns info b' →
  markHost ONLINE (EndpointInfo.id info) (IBalancerWithPriorities.registry b) = Some r →
  IBalancerWithPriorities.hasBetterHostToConnect (EndpointInfo.id info)
    (IBalancerWithPriorities.mk r (IBalancerWithPriorities.priorities b)) = Some false.
Proof.
  intros Hwf Hmax Hret Hr. set (id := EndpointInfo.id info) in *.
  set (b2 := IBalancerWithPriorities.mk r (IBalancerWithPriorities.priorities b)).
  pose proof (priorities_wf_markHost _ _ _ _ Hwf Hr) as Hwf2. fold b2 in Hwf2.
  destruct (Priorities_getHostToConnect_spec b Hwf Hmax) as (_ & Hinfo & _).
  destruct (Hinfo _ _ Hret) as (_ & _ & Hmost). fold id in Hmost.
  assert (∀ j, statusOf r j = if decide (j = id) then Some ONLINE
                              else statusOf (IBalancerWithPriorities.registry b) j) as Hst.
  { intros j. by apply statusOf_markHost. }
  assert (statusOf r id = Some ONLINE) as Hid by (by rewrite Hst, decide_True).
  unfold IBalancerWithPriorities.hasBetterHostToConnect.
  destruct (getMostPriority_spec b2 Hwf2 ONLINE) as [[_ Hall]|(id' & -> & Hmost')].
  { exfalso. destruct (priorityOf_is_Some b2 Hwf2 id ONLINE Hid) as [q Hq].
    specialize (Hall id q Hid Hq). unfold priorities_below_max in Hmax.
    rewrite Forall_forall in Hmax. unfold priorityOf in Hq. simpl in Hq.
    apply list_elem_of_lookup_2, Hmax in Hq. lia. }
  simpl. rewrite bool_decide_eq_false_2; [done|]. intros Hne. apply Hne. clear Hne.
  destruct Hmost' as (Hid' & p' & Hp' & Hmin'). simpl in Hid'.
  destruct (decide (id' = id)) as [|Hne]; [done|]. exfalso.
  rewrite Hst, decide_False in Hid' by done.
  destruct Hmost as [(_ & p & Hp & Hmin)|[Hnil _]].
  - destruct (Hmin id' p' Hid' Hp') as [?|[? ?]];
      destruct (Hmin' id p Hid Hp) as [?|[? ?]]; lia.
  - destruct Hwf as [Hdense _].
    apply (proj2 (elem_of_getRangeByStatus ONLINE _ id' Hdense)) in Hid'.
    rewrite Hnil in Hid'. by apply elem_of_nil in Hid'.
Qed.

Lemma FirstOrRandom_hasBetter_after g b info b' r :
  FirstOrRandom.getHostToConnect g b = Returns info b' →
  markHost ONLINE (EndpointInfo.id info) (FirstOrRandom.registry b) = Some r →
  FirstOrRandom.hasBetterHostToConnect (EndpointInfo.id info) (FirstOrRandom.mk r)
    = Some false.
Proof.
  intros Hret Hr. set (id := EndpointInfo.id info) in *.
  pose proof (statusOf_markHost _ _ _ _ 0 Hr) as Hst.
  unfold FirstOrRandom.getHostToConnect in Hret.
  unfold FirstOrRandom.hasBetterHostToConnect. simpl. unfold statusOf in Hst.
  destruct (findEndpointById 0 (FirstOrRandom.registry b)) as [e0|] eqn:He0; [|done].
  destruct (findEndpointById 0 r) as [e|] eqn:He; last first.
  { by case_decide. }
  simpl in *. f_equal. destruct (decide (id = 0)) as [Hid|Hid].
  - rewrite (bool_decide_eq_false_2 (id ≠ 0)) by auto. apply andb_false_r.
  - rewrite decide_False in Hst by done. injection Hst as Hst.
    rewrite bool_decide_eq_false_2; [done|]. rewrite Hst. intros Hon.
    rewrite decide_True in Hret by done.
    apply returning_inv in Hret as [[Hinfo _]%asEndpoint_id _]. by apply Hid.
Qed.

Lemma hasBetter_after_connect g b info b1 :
  wf b → Balancer.getHostToConnect g b = Returns info b1 →
  ∃ b2, Balancer.markHostOnline (EndpointInfo.id info) b1 = Some b2 ∧
        Balancer.hasBetterHostToConnect (EndpointInfo.id info) b2 = Some false.
Proof.
  intros Hwf Hret.
  destruct (Balancer_getHostToConnect_spec g b Hwf) as (Hsel & Hkeep & _).
  rewrite Hret in Hsel. destruct Hsel as [Hav Hreg].
  destruct (Hkeep _ _ Hret) as [Hwf1 Hsame].
  assert (EndpointInfo.id info < getEndpointsCount (registryOf b1)) as Hlt.
  { rewrite Hreg. destruct Hav as [Hav|Hav]; by eapply statusOf_lt. }
  destruct (markHost_Some ONLINE _ _ Hlt) as [r Hr].
  unfold Balancer.markHostOnline, markHostOnline. rewrite Hr. simpl.
  eexists. split; [done|].
  destruct b as [b|b|b|b]; simpl in Hret;
    apply withState_returns in Hret as (b1' & Hret & ->); simpl in *; try done.
  - destruct Hwf as [_ [Hpwf Hmax]].
    destruct (Priorities_getHostToConnect_spec b Hpwf Hmax) as (_ & Hinfo & _).
    destruct (Hinfo _ _ Hret) as (-> & _). by eapply Priorities_hasBetter_after.
  - destruct (FirstOrRandom_getHostToConnect_spec g b) as [_ Hb]; [apply Hwf..|].
    rewrite (Hb _ _ Hret) in Hr. by eapply FirstOrRandom_hasBetter_after.
Qed.

(** X12.  After [getHostToConnect] has returned an endpoint and that
    endpoint has been marked online, [hasBetterHostToConnect] answers
    [false] for it, whatever the policy: the branch of [createClient] that
    drops a session to look for a better host is never taken. *)
Theorem hasBetterHostToConnect_after_connect metrics args_ lb b0 us b g info b1 :
  metrics_bounded metrics (hosts args_) →
  N.of_nat (length (hosts args_)) ≤ 2 ^ 31 →
  init metrics args_ newZooKeeperLoadBalancer = Returns () lb →
  connection_balancer lb = Some b0 →
  applyUpdates us b0 = Some b →
  Balancer.getHostToConnect g b = Returns info b1 →
  ∃ b2, Balancer.markHostOnline (EndpointInfo.id info) b1 = Some b2 ∧
        Balancer.hasBetterHostToConnect (EndpointInfo.id info) b2 = Some false.
Proof.
  intros Hm Hlen Hinit Hb0 Hus Hret.
  destruct (reachable_count _ _ _ _ _ _ Hm Hlen Hinit Hb0 Hus) as (Hwf & _ & _).
  by apply (hasBetter_after_connect g b).
Qed.

Lemma hasBetterHostToConnect_after_connect_witness :
  ∃ info b1 b2,
    Balancer.getHostToConnect 0 (PrioritiesBalancer example_priorities) = Returns info b1 ∧
    Balancer.markHostOnline (EndpointInfo.id info) b1 = Some b2 ∧
    Balancer.hasBetterHostToConnect (EndpointInfo.id info) b2 = Some false.
Proof.
  eexists _, _. 
  destruct (hasBetterHostToConnect_after_connect example_metrics
           (example_args HOSTNAME_LEVENSHTEIN_DISTANCE)
           (example_lb HOSTNAME_LEVENSHTEIN_DISTANCE)
           (example_balancer HOSTNAME_LEVENSHTEIN_DISTANCE)
           [MarkHostOnline 0; MarkHostOnline 2; MarkHostOffline 1]
           (PrioritiesBalancer example_priorities) 0 _ _
           (example_metrics_bounded _) ltac:(vm_compute; discriminate)
           eq_refl eq_refl eq_refl eq_refl) as (b2 & Hmark & Hbetter).
  exists b2. split_and!; [reflexivity|exact Hmark|exact Hbetter].
Defined.

(** X13.  On a priority-ordered balancer, built with priorities below
    [SIZE_MAX], after any calls: [hasBetterHostToConnect(current)] answers
    [true] exactly when the [ONLINE] endpoint of minimum priority value and,
    among those, of lowest id, is another endpoint than [current]. *)
Theorem Priorities_hasBetterHostToConnect_spec hosts priority_calculator us b current :
  priorities_below_max (IBalancerWithPriorities.new hosts priority_calculator) →
  applyUpdates us (PrioritiesBalancer (IBalancerWithPriorities.new hosts priority_calculator))
    = Some (PrioritiesBalancer b) →
  ∃ better, IBalancerWithPriorities.hasBetterHostToConnect current b = Some better ∧
            (better = true ↔ ∃ id, id ≠ current ∧ most_priority b ONLINE id).
Proof.
  intros Hmax Hus. destruct (Priorities_reachable _ _ _ _ Hmax Hus) as [Hwf Hmaxb].
  unfold IBalancerWithPriorities.hasBetterHostToConnect.
  destruct (getMostPriority_spec b Hwf ONLINE) as [[Hnone Hall]|(id & -> & Hmost)].
  - rewrite Hnone. simpl. eexists. split; [done|]. split; [done|].
    intros (id & _ & Hid & p & Hp & _). specialize (Hall _ _ Hid Hp).
    unfold priorities_below_max in Hmaxb. rewrite Forall_forall in Hmaxb.
    unfold priorityOf in Hp. apply list_elem_of_lookup_2, Hmaxb in Hp. lia.
  - simpl. eexists. split; [done|]. rewrite bool_decide_eq_true. split.
    + intros Hne. eauto.
    + intros (id' & Hne & Hmost'). by rewrite (most_priority_unique _ _ _ _ Hmost Hmost').
Qed.

Lemma Priorities_hasBetterHostToConnect_spec_witness :
  ∃ better,
    IBalancerWithPriorities.hasBetterHostToConnect 2 example_priorities = Some better ∧
    (better = true ↔ ∃ id, id ≠ 2 ∧ most_priority example_priorities ONLINE id).
Proof.
  apply (Priorities_hasBetterHostToConnect_spec
           ["a"; "b"; "secure://c"] (priorityAsLevenshtein example_metrics)
           [MarkHostOnline 0; MarkHostOnline 2; MarkHostOffline 1]
           example_priorities 2 ltac:(by repeat constructor) eq_refl).
Defined.

(** ** Endpoints worth checking *)

Lemma worthChecking_loop_current b current range acc :
  Forall (λ id, is_Some (IBalancerWithPriorities.getHostWithSetting id b)) range →
  ∃ infos,
    IBalancerWithPriorities.worthChecking_loop b current true range acc = Some (acc ++ infos) ∧
    EndpointInfo.id <$> infos = range ∧
    Forall (λ info, IBalancerWithPriorities.getHostWithSetting (EndpointInfo.id info) b
                    = Some info) infos.
Proof.
  revert acc. induction range as [|id range IH]; intros acc Hrange; simpl.
  - exists []. by rewrite app_nil_r.
  - apply Forall_cons_1 in Hrange as [[info Hinfo] Hrange]. rewrite Hinfo. simpl.
    destruct (IH (acc ++ [info]) Hrange) as (infos & -> & <- & Hall).
    exists (info :: infos). rewrite <- app_assoc. simpl.
    destruct (getHostWithSetting_inv _ _ _ Hinfo) as [Hid _].
    split_and!; [done|by rewrite Hid|]. constructor; [by rewrite Hid|done].
Qed.

(** X14.  [IBalancerWithPriorities::endpointsWorthChecking] as the code
    has it, on a balancer with one priority per endpoint: with a current
    endpoint, whichever, it returns every [UNDEF] endpoint and then every
    [OFFLINE] endpoint, each in ascending id and as [getHostWithSetting]
    describes it, and no [ONLINE] endpoint; without a current endpoint it
    returns nothing when every endpoint is [ONLINE] and is undefined
    otherwise. *)
Theorem endpointsWorthChecking_spec b :
  priorities_wf b →
  let r := IBalancerWithPriorities.registry b in
  (∀ current, ∃ infos,
     IBalancerWithPriorities.endpointsWorthChecking (Some current) b = Some infos ∧
     EndpointInfo.id <$> infos = getRangeByStatus UNDEF r ++ getRangeByStatus OFFLINE r ∧
     Forall (λ info, IBalancerWithPriorities.getHostWithSetting (EndpointInfo.id info) b
                     = Some info) infos) ∧
  IBalancerWithPriorities.endpointsWorthChecking None b =
    if decide (getRangeByStatus UNDEF r = [] ∧ getRangeByStatus OFFLINE r = [])
    then Some [] else None.
Proof.
  intros Hwf r. pose proof Hwf as [Hdense _]. split.
  - intros current. unfold IBalancerWithPriorities.endpointsWorthChecking. simpl. fold r.
    assert (∀ s, Forall (λ id, is_Some (IBalancerWithPriorities.getHostWithSetting id b))
                   (getRangeByStatus s r)) as Hsome.
    { intros s. apply Forall_forall. intros id Hid.
      apply (proj1 (elem_of_getRangeByStatus s r id Hdense)) in Hid.
      destruct (getHostWithSetting_spec b Hwf id s Hid) as (info & _ & _ & -> & _). eauto. }
    destruct (worthChecking_loop_current b current _ [] (Hsome UNDEF))
      as (infos1 & -> & Hids1 & Hall1). simpl.
    destruct (worthChecking_loop_current b current _ infos1 (Hsome OFFLINE))
      as (infos2 & -> & Hids2 & Hall2).
    eexists. split; [done|]. rewrite fmap_app, Hids1, Hids2.
    split; [done|]. by apply Forall_app.
  - case_decide as Hnil.
    + destruct Hnil as [Hundef Hoff].
      unfold IBalancerWithPriorities.endpointsWorthChecking. fold r.
      by rewrite Hundef, Hoff.
    + by apply endpointsWorthChecking_no_current.
Qed.

Lemma example_priorities_wf : priorities_wf example_priorities.
Proof.
  split; [|reflexivity]. intros [|[|[|i]]] e; simpl; intros [= <-]; reflexivity.
Qed.

Lemma endpointsWorthChecking_spec_witness :
  ∃ infos,
    IBalancerWithPriorities.endpointsWorthChecking (Some 0) example_priorities = Some infos ∧
    EndpointInfo.id <$> infos = [1].
Proof.
  destruct (proj1 (endpointsWorthChecking_spec example_priorities example_priorities_wf) 0)
    as (infos & Hinfos & Hids & _).
  exists infos. split; [exact Hinfos|exact Hids].
Defined.

(** What [getMostPriority] returns has a priority below the value
    [min_priority] starts from. *)
Lemma getMostPriority_below_max status b id :
  priorities_wf b →
  IBalancerWithPriorities.getMostPriority status b = Some (Some id) →
  ∃ p, priorityOf b id = Some p ∧ p < SIZE_MAX.
Proof.
  intros Hwf. pose proof Hwf as [Hr Hlen].
  unfold IBalancerWithPriorities.getMostPriority.
  set (r := IBalancerWithPriorities.registry b) in *.
  destruct (getMostPriority_loop_spec (IBalancerWithPriorities.priorities b)
              (getRangeByStatus status r) SIZE_MAX (getEndpointsCount r))
    as (mp' & mi' & -> & Hcase).
  { apply Forall_forall. intros j Hj.
    apply (proj1 (elem_of_getRangeByStatus status r j Hr)) in Hj.
    by eapply priorityOf_is_Some. }
  simpl. destruct Hcase as [(-> & -> & _)|(Hlt & Hmi & _)].
  - by rewrite decide_True.
  - case_decide; [done|]. intros [= <-]. eauto.
Qed.

(** X15.  [getMostPriority] on a balancer with one priority per endpoint
    never reads outside the priority vector.  What it returns is the
    endpoint of the status with the lowest priority value and, among those,
    the lowest id, and the priority of that endpoint is below [SIZE_MAX].
    It returns nothing exactly when no endpoint of the status has a priority
    below [SIZE_MAX], in particular when none has the status. *)
Theorem getMostPriority_result status b :
  priorities_wf b →
  let r := IBalancerWithPriorities.registry b in
  match IBalancerWithPriorities.getMostPriority status b with
  | Some (Some id) =>
      most_priority b status id ∧ ∃ p, priorityOf b id = Some p ∧ p < SIZE_MAX
  | Some None =>
      ∀ id p, statusOf r id = Some status → priorityOf b id = Some p → SIZE_MAX ≤ p
  | None => False
  end ∧
  (IBalancerWithPriorities.getMostPriority status b = Some None ↔
   ∀ id p, statusOf r id = Some status → priorityOf b id = Some p → SIZE_MAX ≤ p) ∧
  (getRangeByStatus status r = [] →
   IBalancerWithPriorities.getMostPriority status b = Some None).
Proof.
  intros Hwf r.
  pose proof (getMostPriority_below_max status b) as Hbelow.
  assert (∀ id, IBalancerWithPriorities.getMostPriority status b = Some (Some id) →
                ¬ ∀ j q, statusOf r j = Some status → priorityOf b j = Some q →
                         SIZE_MAX ≤ q) as Hsome.
  { intros id Hid Hall. destruct (Hbelow id Hwf Hid) as (p & Hp & Hlt).
    destruct (getMostPriority_spec b Hwf status) as [[Hnone _]|(id' & Hid' & Hst & _)];
      [congruence|].
    assert (id' = id) as -> by congruence. specialize (Hall _ _ Hst Hp). lia. }
  destruct (getMostPriority_spec b Hwf status) as [[Hnone Hall]|(id & Hid & Hmost)].
  - rewrite Hnone. split; [done|]. split; [done|]. done.
  - rewrite Hid. split; [split; [done|by apply Hbelow]|]. split.
    + split; [done|]. intros Hall. by destruct (Hsome id Hid).
    + intros Hnil. destruct Hmost as [Hst _]. exfalso.
      apply elem_of_getRangeByStatus in Hst; [|by destruct Hwf].
      fold r in Hst. rewrite Hnil in Hst. by apply not_elem_of_nil in Hst.
Qed.

Lemma getMostPriority_result_witness :
  (most_priority example_priorities ONLINE 0 ∧
   ∃ p, priorityOf example_priorities 0 = Some p ∧ p < SIZE_MAX) ∧
  IBalancerWithPriorities.getMostPriority UNDEF example_priorities = Some None.
Proof.
  split.
  - exact (proj1 (getMostPriority_result ONLINE example_priorities example_priorities_wf)).
  - apply (proj2 (proj2 (getMostPriority_result UNDEF example_priorities
                           example_priorities_wf))).
    reflexivity.
Defined.

(** ** What a selection carries *)

Lemma asEndpoint_describes fallback id r info :
  asEndpoint fallback id r = Some info → describes r info.
Proof.
  unfold asEndpoint, describes. destruct (findEndpointById id r) as [e|] eqn:He; [|done].
  simpl. intros [= <-]. simpl. eauto.
Qed.

Lemma getHostWithSetting_describes id b info :
  IBalancerWithPriorities.getHostWithSetting id b = Some info →
  describes (IBalancerWithPriorities.registry b) info.
Proof.
  unfold IBalancerWithPriorities.getHostWithSetting.
  destruct (IBalancerWithPriorities.isOptimalEndpoint id b) as [[]|]; [| |done];
    apply asEndpoint_describes.
Qed.

Lemma Balancer_getHostToConnect_describes g b info b' :
  Balancer.getHostToConnect g b = Returns info b' → describes (registryOf b) info.
Proof.
  intros Hret.
  destruct b as [b|b|b|b]; simpl in *;
    apply withState_returns in Hret as (b1 & Hret & _).
  - unfold Random.getHostToConnect, Random.getHostFrom in Hret.
    repeat case_decide;
      try (apply returning_inv in Hret as [Hret _];
           destruct (drawFrom _ _); [|done]; simpl in Hret;
           by apply asEndpoint_describes in Hret).
    apply withState_returns in Hret as (? & Hret & _).
    by apply noEndpointsLeft_returns in Hret.
  - unfold IBalancerWithPriorities.getHostToConnect in Hret.
    repeat case_match; try done;
      try (apply returning_inv in Hret as [Hret _];
           by apply getHostWithSetting_describes in Hret).
    apply withState_returns in Hret as (? & Hret & _).
    by apply noEndpointsLeft_returns in Hret.
  - unfold RoundRobin.getHostToConnect, RoundRobin.selectEndpoint in Hret.
    repeat (case_match || case_decide); try done;
      try (apply returning_inv in Hret as [Hret _];
           by apply asEndpoint_describes in Hret).
    all: apply withState_returns in Hret as (? & Hret & _).
    all: by apply noEndpointsLeft_returns in Hret.
  - unfold FirstOrRandom.getHostToConnect, FirstOrRandom.getHostFrom in Hret.
    repeat (case_match || case_decide); try done;
      try (apply returning_inv in Hret as [Hret _];
           try (destruct (drawFrom _ _); [|done]; simpl in Hret);
           by apply asEndpoint_describes in Hret).
    all: apply withState_returns in Hret as (? & Hret & _).
    all: by apply noEndpointsLeft_returns in Hret.
Qed.

(** X16.  The endpoint [getHostToConnect] returns is one of the registry,
    with the address and the secure flag the registry holds for its id,
    whatever the policy. *)
Theorem getHostToConnect_describes g b info b' :
  Balancer.getHostToConnect g b = Returns info b' → describes (registryOf b) info.
Proof. apply Balancer_getHostToConnect_describes. Qed.

Lemma getHostToConnect_describes_witness :
  ∃ info b', Balancer.getHostToConnect 5 (FirstOrRandomBalancer example_first_or_random)
             = Returns info b' ∧
             describes (FirstOrRandom.registry example_first_or_random) info.
Proof.
  eexists _, _. split; [reflexivity|].
  exact (getHostToConnect_describes 5 (FirstOrRandomBalancer example_first_or_random) _ _
           eq_refl).
Defined.

(** ** The connection loop ends *)

Lemma availableEndpoints_le r : (availableEndpoints r ≤ length (endpoints r))%nat.
Proof. unfold availableEndpoints. pose proof (getRangeByStatus_lengths r). lia. Qed.

Lemma length_filter_alter (P : Endpoint.t → Prop) `{∀ e, Decision (P e)} f l i e :
  l !! i = Some e → ¬ P e → P (f e) →
  length (filter P (alter f i l)) = S (length (filter P l)).
Proof.
  revert i. induction l as [|x l IH]; intros [|i] Hi Hne He; try done.
  - injection Hi as ->. change (alter f 0%nat (e :: l)) with (f e :: l).
    by rewrite filter_cons_True, filter_cons_False.
  - change (alter f (S i) (x :: l)) with (x :: alter f i l).
    rewrite !filter_cons. case_decide; simpl; by rewrite (IH i).
Qed.

Lemma availableEndpoints_markHostOffline id r r' :
  available r id → markHostOffline id r = Some r' →
  S (availableEndpoints r') = availableEndpoints r.
Proof.
  intros Hav Hr. pose proof (getRangeByStatus_lengths r) as Hl.
  pose proof (getRangeByStatus_lengths r') as Hl'.
  assert (∃ e, endpoints r !! N.to_nat id = Some e ∧ Endpoint.status e ≠ OFFLINE)
    as (e & He & Hs).
  { destruct Hav as [Hav|Hav]; destruct (findEndpointById_status _ _ _ Hav) as (e & ? & ?);
      exists e; split; try done; congruence. }
  apply markHost_inv in Hr as [_ Hr]. unfold availableEndpoints.
  assert (length (getRangeByStatus OFFLINE r') = S (length (getRangeByStatus OFFLINE r)))
    as Hoff.
  { unfold getRangeByStatus. rewrite !length_fmap, Hr.
    by apply (length_filter_alter _ _ _ _ e). }
  rewrite Hr, length_alter in Hl'. lia.
Qed.

Lemma describes_markHost s id r r' info :
  markHost s id r = Some r' → describes r info → describes r' info.
Proof.
  intros [_ Hr]%markHost_inv (e & He & ? & ?). unfold describes, findEndpointById in *.
  rewrite Hr, list_lookup_alter. case_decide as Hid.
  - apply N2Nat.inj in Hid. subst id. rewrite He. simpl. eauto.
  - eauto.
Qed.

Lemma Balancer_markHostOffline_available id b :
  wf b → available (registryOf b) id →
  ∃ b', Balancer.markHostOffline id b = Some b' ∧ wf b' ∧
        S (availableEndpoints (registryOf b')) = availableEndpoints (registryOf b) ∧
        Balancer.getEndpointsCount b' = Balancer.getEndpointsCount b.
Proof.
  intros Hwf Hav.
  assert (id < getEndpointsCount (registryOf b)) as Hlt.
  { destruct Hav as [Hav|Hav]; by eapply statusOf_lt. }
  destruct (markHost_Some OFFLINE _ _ Hlt) as [r Hr].
  unfold Balancer.markHostOffline, markHostOffline, Balancer.getEndpointsCount.
  rewrite Hr. simpl. eexists. split; [done|]. rewrite registryOf_withRegistry.
  split_and!.
  - by eapply wf_markHost.
  - by eapply availableEndpoints_markHostOffline.
  - by eapply getEndpointsCount_markHost.
Qed.

Lemma loop_ended_earlier env args first first' last count res :
  (first' ≤ first)%nat →
  loop_ended env args first last count res → loop_ended env args first' last count res.
Proof.
  intros Hle. destruct res as [[client b'|e b'|]|]; simpl; try done.
  - intros (info & k & Hk & ?). exists info, k. split; [lia|done].
  - intros [?|(info & k & p & Hk & ?)]; [by left|right].
    exists info, k, p. split; [lia|done].
Qed.

Lemma createClient_loop_ends env args fuel attempts dns_error_occurred b :
  wf b → (availableEndpoints (registryOf b) < fuel)%nat →
  loop_ended env args attempts (attempts + fuel) (Balancer.getEndpointsCount b)
    (createClient_loop env args fuel attempts dns_error_occurred b).
Proof.
  revert attempts dns_error_occurred b.
  induction fuel as [|fuel IH]; intros attempts dns b Hwf Hfuel; [lia|].
  cbn [createClient_loop].
  destruct (Balancer_getHostToConnect_spec (thread_local_rng env (S attempts)) b Hwf)
    as (Hsel & Hkeep & _).
  destruct (Balancer.getHostToConnect _ b) as [endpoint b1|e b1|] eqn:Hret;
    simpl in Hsel; [| |done].
  2:{ destruct Hsel as (Hnone & -> & Hr). left. split; [done|]. rewrite Hr.
      by apply reset_all_undef. }
  destruct Hsel as [Hav Hreg]. destruct (Hkeep _ _ eq_refl) as [Hwf1 Hsame].
  rewrite <- Hreg in Hav.
  destruct (Balancer_markHostOffline_available _ _ Hwf1 Hav)
    as (b2 & Hoff & Hwf2 & Hless & Hcount).
  assert (∀ dns', loop_ended env args attempts (attempts + S fuel)
                    (Balancer.getEndpointsCount b)
                    (createClient_loop env args fuel (S attempts) dns' b2)) as Hnext.
  { intros dns'.
    assert (Balancer.getEndpointsCount b2 = Balancer.getEndpointsCount b) as <-.
    { rewrite Hcount. unfold Balancer.getEndpointsCount. by rewrite Hreg. }
    apply (loop_ended_earlier _ _ (S attempts)); [lia|].
    replace (attempts + S fuel)%nat with (S attempts + fuel)%nat by lia.
    apply IH; [done|]. rewrite Hreg in Hless. lia. }
  assert (describes (registryOf b1) endpoint) as Hdesc.
  { rewrite Hreg. by eapply Balancer_getHostToConnect_describes. }
  unfold isKeeperHostDNSAvailable.
  destruct (resolve env (S attempts) (EndpointInfo.address endpoint)) as [|[]] eqn:Hres;
    simpl; rewrite ?Hoff; [|apply Hnext..|].
  - destruct (resolve_again env (S attempts) (EndpointInfo.address endpoint))
      as [|p] eqn:Hagain.
    + destruct (connect env (S attempts) _) eqn:Hcon; rewrite ?Hoff; [|apply Hnext].
      destruct (hasBetter_after_connect _ _ _ _ Hwf Hret) as (b3 & Hon & Hbetter).
      rewrite Hon, Hbetter. exists endpoint, (S attempts).
      unfold Balancer.markHostOnline in Hon.
      destruct (markHostOnline _ (registryOf b1)) as [r|] eqn:Hr; [|done].
      simpl in Hon. injection Hon as <-. rewrite registryOf_withRegistry.
      split; [lia|]. split; [reflexivity|]. split; [|split; [|split; [done|split]]].
      * by apply (describes_markHost _ _ _ _ _ Hr).
      * by rewrite (statusOf_markHost _ _ _ _ _ Hr), decide_True.
      * exact Hagain.
      * exact Hcon.
    + right. exists endpoint, (S attempts), p.
      split; [lia|]. split; [done|]. split; [done|]. by right.
  - right. exists endpoint, (S attempts), OtherNetException.
    split; [lia|]. split; [done|]. split; [done|]. by left.
Qed.



Lemma createClient_initialised env fuel args_ b :
  createClient env fuel {| args := Some args_; connection_balancer := Some b |} =
  withState (λ balancer, {| args := Some args_; connection_balancer := Some balancer |})
    <$> createClient_loop env args_ fuel 0 false b.
Proof. done. Qed.



(** ** What no call changes *)

Lemma identity_markHost s id r r' :
  markHost s id r = Some r' → identity <$> endpoints r' = identity <$> endpoints r.
Proof.
  intros [_ ->]%markHost_inv. apply list_eq. intros i.
  rewrite !list_lookup_fmap, list_lookup_alter. case_decide; [|done]. subst i.
  by destruct (endpoints r !! N.to_nat id).
Qed.

Lemma identity_reset r :
  identity <$> endpoints (resetOfflineStatuses r) = identity <$> endpoints r.
Proof.
  unfold resetOfflineStatuses. simpl. rewrite <- list_fmap_compose.
  apply list_fmap_ext. intros i e _. simpl. unfold resetOfflineStatus. by case_decide.
Qed.

Lemma identity_applyUpdate u b b' :
  wf b → applyUpdate u b = Some b' →
  identity <$> endpoints (registryOf b') = identity <$> endpoints (registryOf b).
Proof.
  intros Hwf. destruct u as [id|id| |g]; simpl.
  - unfold Balancer.markHostOnline, markHostOnline.
    destruct (markHost ONLINE id (registryOf b)) as [r|] eqn:Hr; [|done].
    simpl. intros [= <-]. rewrite registryOf_withRegistry. by eapply identity_markHost.
  - unfold Balancer.markHostOffline, markHostOffline.
    destruct (markHost OFFLINE id (registryOf b)) as [r|] eqn:Hr; [|done].
    simpl. intros [= <-]. rewrite registryOf_withRegistry. by eapply identity_markHost.
  - intros [= <-]. unfold Balancer.resetOfflineStatuses. rewrite registryOf_withRegistry.
    apply identity_reset.
  - destruct (Balancer_getHostToConnect_spec g b Hwf) as (Hsel & _ & _).
    destruct (Balancer.getHostToConnect g b) as [info b1|e b1|]; simpl in Hsel; [| |done].
    + intros [= <-]. destruct Hsel as [_ ->]. done.
    + intros [= <-]. destruct Hsel as (_ & _ & ->). apply identity_reset.
Qed.

Lemma identity_applyUpdates us b b' :
  wf b → applyUpdates us b = Some b' →
  identity <$> endpoints (registryOf b') = identity <$> endpoints (registryOf b).
Proof.
  revert b. induction us as [|u us IH]; intros b Hwf; simpl.
  - by intros [= <-].
  - destruct (applyUpdate u b) as [b1|] eqn:Hu; [|done]. simpl. intros Hus.
    destruct (applyUpdate_wf _ _ _ Hwf Hu) as [Hwf1 _].
    rewrite (IH _ Hwf1 Hus). by eapply identity_applyUpdate.
Qed.

(** X18.  No call changes what an endpoint is: after any sequence of
    [markHostOnline], [markHostOffline], [resetOfflineStatuses] and
    [getHostToConnect], whatever the policy, the registry still holds one
    endpoint per configured host, in order, with the parsed address, the
    secure flag and the id it was registered with. *)
Theorem endpoints_identity_kept metrics args_ lb b0 us b :
  metrics_bounded metrics (hosts args_) →
  N.of_nat (length (hosts args_)) ≤ 2 ^ 31 →
  init metrics args_ newZooKeeperLoadBalancer = Returns () lb →
  connection_balancer lb = Some b0 →
  applyUpdates us b0 = Some b →
  identity <$> endpoints (registryOf b) =
    imap (λ i raw_host, identity (hostEndpoint raw_host (N.of_nat i))) (hosts args_).
Proof.
  intros Hm Hlen Hinit Hb0 Hus.
  destruct (init_inv _ _ _ _ _ Hinit Hb0) as [Hne ->].
  rewrite (identity_applyUpdates _ _ _ (wf_getConnectionBalancer _ _ _ Hm Hne Hlen) Hus).
  assert (registryOf (getConnectionBalancer metrics (load_balancing args_) (hosts args_))
          = IBalancerWithEndpointStatuses (hosts args_)) as ->.
  { by destruct (load_balancing args_). }
  unfold IBalancerWithEndpointStatuses. rewrite registerHosts_endpoints. simpl.
  apply list_eq. intros i. rewrite list_lookup_fmap, !list_lookup_imap.
  by destruct (hosts args_ !! i).
Qed.

Lemma endpoints_identity_kept_witness :
  identity <$> endpoints (registryOf example_exhausted) =
    [("a", false, 0); ("b", false, 1); ("c", true, 2)].
Proof.
  exact (endpoints_identity_kept example_metrics (example_args IN_ORDER)
           (example_lb IN_ORDER) (example_balancer IN_ORDER)
           [MarkHostOffline 0; MarkHostOffline 1; MarkHostOffline 2]
           example_exhausted (example_metrics_bounded _)
           ltac:(vm_compute; discriminate) eq_refl eq_refl eq_refl).
Defined.

(** ** The two ends of the connection loop *)

(** X19.  When the endpoint selected at the first attempt resolves, at the
    probe and for the node, and its server accepts the connection,
    [createClient] returns the session of that endpoint after one round,
    with the endpoint marked online: a session that was opened is never
    dropped. *)
Theorem createClient_first_success metrics args_ lb b0 us b env fuel info b1 :
  metrics_bounded metrics (hosts args_) →
  N.of_nat (length (hosts args_)) ≤ 2 ^ 31 →
  init metrics args_ newZooKeeperLoadBalancer = Returns () lb →
  connection_balancer lb = Some b0 →
  applyUpdates us b0 = Some b →
  Balancer.getHostToConnect (thread_local_rng env 1) b = Returns info b1 →
  resolve env 1 (EndpointInfo.address info) = Resolved →
  resolve_again env 1 (EndpointInfo.address info) = Resolved →
  connect env 1 (nodeOf info) = true →
  ∃ b2, Balancer.markHostOnline (EndpointInfo.id info) b1 = Some b2 ∧
        createClient env (S fuel) {| args := Some args_; connection_balancer := Some b |} =
          Some (Returns (clientOf args_ info)
                  {| args := Some args_; connection_balancer := Some b2 |}).
Proof.
  intros Hm Hlen Hinit Hb0 Hus Hret Hres Hagain Hcon.
  destruct (reachable_count _ _ _ _ _ _ Hm Hlen Hinit Hb0 Hus) as (Hwf & _ & _).
  destruct (hasBetter_after_connect _ _ _ _ Hwf Hret) as (b2 & Hon & Hbetter).
  exists b2. split; [done|]. rewrite createClient_initialised.
  cbn [createClient_loop]. rewrite Hret. unfold isKeeperHostDNSAvailable.
  rewrite Hres, Hagain. simpl. unfold nodeOf in Hcon. rewrite Hcon, Hon, Hbetter. done.
Qed.

Lemma createClient_first_success_witness :
  ∃ lb', createClient example_all_up 1 (example_lb IN_ORDER) =
           Some (Returns {| node := {| node_address := "a"; original_index := 0;
                                       node_secure := false |};
                            session_deadline := None |} lb').
Proof.
  destruct (createClient_first_success example_metrics (example_args IN_ORDER)
              (example_lb IN_ORDER) (example_balancer IN_ORDER) []
              (example_balancer IN_ORDER) example_all_up 0 _ _
              (example_metrics_bounded _) ltac:(vm_compute; discriminate)
              eq_refl eq_refl eq_refl eq_refl eq_refl eq_refl eq_refl) as (b2 & _ & Hrun).
  eexists. exact Hrun.
Defined.

(** X20.  When the resolver raises nothing but the two exceptions
    [isKeeperHostDNSAvailable] catches, an address that passed the probe
    resolves again for the node, and no server accepts a connection,
    [createClient] throws [ALL_CONNECTION_TRIES_FAILED] with the number of
    hosts and leaves every endpoint [UNDEF], ready for the next call. *)
Theorem createClient_all_fail metrics args_ lb b0 us b env fuel :
  metrics_bounded metrics (hosts args_) →
  N.of_nat (length (hosts args_)) ≤ 2 ^ 31 →
  init metrics args_ newZooKeeperLoadBalancer = Returns () lb →
  connection_balancer lb = Some b0 →
  applyUpdates us b0 = Some b →
  (length (hosts args_) < fuel)%nat →
  (∀ k address, resolve env k address ≠ Raises OtherNetException) →
  (∀ k address, resolve env k address = Resolved →
                resolve_again env k address = Resolved) →
  (∀ k address node, resolve env k address = Resolved → connect env k node = false) →
  ∃ b', createClient env fuel {| args := Some args_; connection_balancer := Some b |} =
          Some (Throws (noAvailableEndpoints (N.of_nat (length (hosts args_))))
                  {| args := Some args_; connection_balancer := Some b' |}) ∧
        Forall (λ endpoint, Endpoint.status endpoint = UNDEF) (endpoints (registryOf b')).
Proof.
  intros Hm Hlen Hinit Hb0 Hus Hfuel Hcaught Hstable Hdown.
  destruct (reachable_count _ _ _ _ _ _ Hm Hlen Hinit Hb0 Hus) as (Hwf & _ & Hcount).
  assert (availableEndpoints (registryOf b) < fuel)%nat as Hav.
  { pose proof (availableEndpoints_le (registryOf b)).
    unfold Balancer.getEndpointsCount, getEndpointsCount in Hcount. lia. }
  pose proof (createClient_loop_ends env args_ fuel 0 false b Hwf Hav) as Hends.
  rewrite createClient_initialised.
  destruct (createClient_loop env args_ fuel 0 false b) as [[client b'|e b'|]|];
    simpl in *; try done.
  - destruct Hends as (info & k & _ & _ & _ & _ & Hres & _ & Hcon).
    rewrite (Hdown _ _ _ Hres) in Hcon. done.
  - destruct Hends as [[-> ?]|(info & k & p & _ & _ & _ & Hcase)].
    + rewrite Hcount. eauto.
    + exfalso. destruct Hcase as [(Hres & Hp1 & Hp2)|[Hres Hagain]].
      * destruct p; [done..|]. by apply Hcaught in Hres.
      * rewrite (Hstable _ _ Hres) in Hagain. done.
Qed.

Lemma createClient_all_fail_witness :
  ∃ b', createClient example_all_refuse 4 (example_lb ROUND_ROBIN) =
          Some (Throws (noAvailableEndpoints 3)
                  {| args := Some (example_args ROUND_ROBIN);
                     connection_balancer := Some b' |}) ∧
        Forall (λ endpoint, Endpoint.status endpoint = UNDEF) (endpoints (registryOf b')).
Proof.
  apply (createClient_all_fail example_metrics (example_args ROUND_ROBIN)
           (example_lb ROUND_ROBIN) (example_balancer ROUND_ROBIN) []
           (example_balancer ROUND_ROBIN) example_all_refuse 4
           (example_metrics_bounded _) ltac:(vm_compute; discriminate)
           eq_refl eq_refl eq_refl ltac:(simpl; lia)).
  - intros k address. discriminate.
  - intros k address _. reflexivity.
  - intros k address node _. reflexivity.
Defined.
